(** * NTN dongle firmware update: a shallow embedding of
      [ntn_dongle_fw_update.py] and the properties of its unlock protocol.

    The script talks to three things outside itself: the Modbus RTU master
    (modbus_tk over pyserial), the operating system (PATH lookup, file
    existence, child processes) and the logger.  Every call to one of them is
    recorded as an [event] in a chronological [trace]; what the outside world
    answers is given by an [Env] of oracles that may depend on the whole
    history so far.  Python exceptions are an explicit outcome, and the
    trace survives a raise, as side effects do in Python. *)

From Stdlib Require Import ZArith List String Bool QArith Lia.
From Stdlib Require Import DecimalString.
Import ListNotations.
Local Open Scope string_scope.
Local Open Scope list_scope.
Local Open Scope Z_scope.

(** ** Python values that cross the boundary *)

(** Instances of Python's [Exception] that the script raises itself or may
    receive from its libraries.  [OtherException] stands for any further
    subclass of [Exception] (serial.SerialException, struct.error, OSError,
    ...).  Asynchronous interrupts, which are not [Exception]s, are outside
    the model. *)
Inductive exn : Type :=
| ValueError (msg : string)
| RuntimeError (msg : string)
| IndexError
| ModbusError (exception_code : Z)
| TimeoutExpired
| CalledProcessError (returncode : Z) (cmd : list string)
| FileNotFoundError
| OtherException (name : string).

(** [except modbus_tk.modbus.ModbusError] *)
Definition is_ModbusError (e : exn) : bool :=
  match e with ModbusError _ => true | _ => false end.

(** [except (subprocess.TimeoutExpired, subprocess.CalledProcessError,
    FileNotFoundError)] *)
Definition is_probe_error (e : exn) : bool :=
  match e with
  | TimeoutExpired | CalledProcessError _ _ | FileNotFoundError => true
  | _ => false
  end.

(** [except Exception] *)
Definition is_Exception (e : exn) : bool := true.

Definition get_exception_code (e : exn) : Z :=
  match e with ModbusError c => c | _ => 0 end.

(** modbus_tk.defines *)
Module cst.
Definition READ_INPUT_REGISTERS : Z := 4.
Definition WRITE_SINGLE_REGISTER : Z := 6.
Definition WRITE_MULTIPLE_REGISTERS : Z := 16.
End cst.

(** The [output_value] argument of [Master.execute]: an int for a single
    write, a sequence for a multiple write; its default is the int 0. *)
Inductive output_value : Type :=
| OvInt (v : Z)
| OvSeq (vs : list Z).

(** Keyword arguments of [serial.Serial] together with the two settings
    applied to the master right after it is built. *)
Record serial_config : Type := {
  cfg_port : string;
  cfg_baudrate : Z;
  cfg_bytesize : Z;
  cfg_parity : string;
  cfg_stopbits : Z;
  cfg_xonxoff : Z;
  cfg_timeout : Z;
  cfg_verbose : bool
}.

(** What [find_pymdfu_executable] returns: a path, or the argument list of
    the module invocation. *)
Inductive pymdfu_cmd : Type :=
| CmdStr (path : string)
| CmdList (argv : list string).

Inductive level : Type := Info | Error.

(** Log records.  f-strings that interpolate an object keep the object, and
    [Rstrip line] is the text [line.rstrip()], kept as the call that
    produces it. *)
Inductive log_msg : Type :=
| Text (s : string)
| Rstrip (line : string)
| OfExn (e : exn)
| TextExn (prefix : string) (e : exn)
| ExnCode (e : exn) (code : Z)
| TextBool (prefix : string) (b : bool)
| TextCmd (prefix : string) (c : pymdfu_cmd).

(** ** Events and traces *)

Inductive event : Type :=
| EvConnect (cfg : serial_config)
    (* modbus_rtu.RtuMaster(serial.Serial(...)), set_timeout, set_verbose *)
| EvExecute (slave fc reg quantity : Z) (ov : output_value)
    (* self.master.execute(...) *)
| EvMasterClose
    (* self.master.close() *)
| EvSleep (seconds : Q)
| EvLog (lv : level) (m : log_msg)
| EvWhich (name : string)
    (* shutil.which *)
| EvExists (path : string)
    (* os.path.exists *)
| EvRun (argv : list string)
    (* subprocess.run(..., timeout=10) *)
| EvPopen (argv : list string)
    (* subprocess.Popen *)
| EvWait (return_code : Z).
    (* process.wait() *)

Definition trace := list event.

(** A spawned child as the script sees it.  Iterating over its merged
    output yields [stdout_lines], the lines that could be read and decoded;
    the read after the last of them either finds the end of the stream
    ([stdout_fault] is None) or raises (UnicodeDecodeError on output that
    does not decode, an I/O error).  [child_status] is what [wait]
    returns. *)
Record child : Type := {
  stdout_lines : list string;
  stdout_fault : option exn;
  child_status : Z
}.

(** The outside world.  Each oracle sees the history up to the call. *)
Record Env : Type := {
  serial_connect : trace -> serial_config -> option exn;
  transport_execute :
    trace -> Z -> Z -> Z -> Z -> output_value -> exn + list Z;
  transport_close : trace -> option exn;
  shutil_which : trace -> string -> option string;
  sys_platform : string;
  sys_executable : string;
  os_path_dirname : string -> string;
  os_path_join : string -> string -> string;
  os_path_exists : trace -> string -> bool;
  subprocess_run : trace -> list string -> exn + Z;
  subprocess_Popen : trace -> list string -> exn + child
}.

(** ** The effect monad *)

Inductive outcome (A : Type) : Type :=
| Return (a : A)
| Raise (e : exn).
Arguments Return {A} a.
Arguments Raise {A} e.

Definition M (A : Type) : Type := trace -> outcome A * trace.

Definition ret {A} (a : A) : M A := fun t => (Return a, t).

Definition raise {A} (e : exn) : M A := fun t => (Raise e, t).

Definition bind {A B} (m : M A) (k : A -> M B) : M B :=
  fun t =>
    match m t with
    | (Return a, t') => k a t'
    | (Raise e, t') => (Raise e, t')
    end.

(** [try: body  except <classes> as e: handler] *)
Definition try_except {A} (body : M A) (classes : exn -> bool)
    (handler : exn -> M A) : M A :=
  fun t =>
    match body t with
    | (Raise e, t') => if classes e then handler e t' else (Raise e, t')
    | r => r
    end.

Definition emit (ev : event) : M unit := fun t => (Return tt, t ++ [ev]).

Declare Scope py_scope.
Delimit Scope py_scope with py.
Notation "x <- m ;; k" := (bind m (fun x => k))
  (at level 61, m at next level, right associativity) : py_scope.
Notation "m ;; k" := (bind m (fun _ => k))
  (at level 61, right associativity) : py_scope.
Local Open Scope py_scope.

Fixpoint for_each {A} (xs : list A) (body : A -> M unit) : M unit :=
  match xs with
  | [] => ret tt
  | x :: rest => body x ;; for_each rest body
  end.

(** Python truthiness of [str] and of [None]-or-[str]. *)
Definition truthy (s : string) : bool :=
  match s with EmptyString => false | _ => true end.

Definition truthy_opt (o : option string) : bool :=
  match o with Some s => truthy s | None => false end.

(** [for line in process.stdout: body]: the body runs on every line the
    stream yields; the read that follows ends the loop or raises. *)
Definition for_stdout (process : child) (body : string -> M unit) : M unit :=
  for_each (stdout_lines process) body ;;
  match stdout_fault process with
  | Some e => raise e
  | None => ret tt
  end.

(** [time.sleep] *)
Definition sleep (seconds : Q) : M unit := emit (EvSleep seconds).

Definition log (lv : level) (m : log_msg) : M unit := emit (EvLog lv m).

Section Program.

Variable env : Env.

(** *** Calls into the libraries *)

Definition master_execute (slave fc reg quantity : Z) (ov : output_value)
  : M (list Z) :=
  fun t =>
    let t' := t ++ [EvExecute slave fc reg quantity ov] in
    match transport_execute env t slave fc reg quantity ov with
    | inl e => (Raise e, t')
    | inr vs => (Return vs, t')
    end.

Definition master_close : M unit :=
  fun t =>
    let t' := t ++ [EvMasterClose] in
    match transport_close env t with
    | Some e => (Raise e, t')
    | None => (Return tt, t')
    end.

Definition rtu_master (cfg : serial_config) : M unit :=
  fun t =>
    let t' := t ++ [EvConnect cfg] in
    match serial_connect env t cfg with
    | Some e => (Raise e, t')
    | None => (Return tt, t')
    end.

Definition which (name : string) : M (option string) :=
  fun t => (Return (shutil_which env t name), t ++ [EvWhich name]).

Definition path_exists (p : string) : M bool :=
  fun t => (Return (os_path_exists env t p), t ++ [EvExists p]).

Definition run_probe (argv : list string) : M Z :=
  fun t =>
    let t' := t ++ [EvRun argv] in
    match subprocess_run env t argv with
    | inl e => (Raise e, t')
    | inr rc => (Return rc, t')
    end.

Definition Popen (argv : list string) : M child :=
  fun t =>
    let t' := t ++ [EvPopen argv] in
    match subprocess_Popen env t argv with
    | inl e => (Raise e, t')
    | inr p => (Return p, t')
    end.

Definition wait (p : child) : M Z :=
  fun t => (Return (child_status p), t ++ [EvWait (child_status p)]).

(** [value[i]] on a tuple *)
Definition index (value : list Z) (i : nat) : M Z :=
  match nth_error value i with
  | Some v => ret v
  | None => raise IndexError
  end.

(** *** class NTNModbusMaster *)

Record NTNModbusMaster : Type := { slave_addr : Z }.

(** [__init__]; bytesize, parity, stopbits and xonxoff take their defaults. *)
Definition NTNModbusMaster_init (slave_address : Z) (port : string)
    (baudrate : Z) : M NTNModbusMaster :=
  try_except
    (rtu_master {| cfg_port := port; cfg_baudrate := baudrate;
                   cfg_bytesize := 8; cfg_parity := "N"; cfg_stopbits := 1;
                   cfg_xonxoff := 0; cfg_timeout := 1;
                   cfg_verbose := false |} ;;
     log Info (Text "NTN dongle init!") ;;
     ret {| slave_addr := slave_address |})
    is_ModbusError
    (fun e => log Error (ExnCode e (get_exception_code e)) ;; raise e).

Definition read_register (self : NTNModbusMaster) (reg functioncode : Z)
  : M (option Z) :=
  try_except
    (value <- master_execute (slave_addr self) functioncode reg 1 (OvInt 0) ;;
     v0 <- index value 0 ;;
     if negb (v0 =? 0) then ret (Some v0) else ret None)
    is_Exception
    (fun e => log Info (OfExn e) ;; ret None).

Definition read_registers (self : NTNModbusMaster) (reg num functioncode : Z)
  : M (option (list Z)) :=
  try_except
    (values <- master_execute (slave_addr self) functioncode reg num
                 (OvInt 0) ;;
     if negb (forallb (fun x => x =? 0) values) then ret (Some values)
     else ret None)
    is_Exception
    (fun e => log Info (OfExn e) ;; ret None).

Definition set_registers (self : NTNModbusMaster) (reg : Z)
    (val : option (list Z)) : M bool :=
  try_except
    (match val with
     | Some vs =>
         master_execute (slave_addr self) cst.WRITE_MULTIPLE_REGISTERS reg 0
           (OvSeq vs) ;;
         ret true
     | None => ret false
     end)
    is_Exception
    (fun e => log Info (OfExn e) ;; ret false).

Definition set_register (self : NTNModbusMaster) (reg : Z) (val : option Z)
  : M bool :=
  try_except
    (match val with
     | Some v =>
         master_execute (slave_addr self) cst.WRITE_SINGLE_REGISTER reg 0
           (OvInt v) ;;
         ret true
     | None => ret false
     end)
    is_Exception
    (fun e => log Info (OfExn e) ;; ret false).

(** [close]: an object that was built always has a truthy [master]. *)
Definition close (self : NTNModbusMaster) : M unit :=
  try_except
    (master_close ;;
     log Info (Text "NTN dongle connection closed!"))
    is_Exception
    (fun e => log Error (TextExn "Error closing connection: " e)).

(** *** find_pymdfu_executable *)

(** A block of statements that may [return] early: [Some a] is the value
    returned, [None] falls through to the statements after it. *)
Definition or_else {A} (block : M (option A)) (rest : M A) : M A :=
  r <- block ;;
  match r with
  | Some a => ret a
  | None => rest
  end.

(** [if pymdfu_path: return pymdfu_path] *)
Definition return_if_found (pymdfu_path : option string)
  : M (option pymdfu_cmd) :=
  if truthy_opt pymdfu_path
  then ret (option_map CmdStr pymdfu_path)
  else ret None.

Definition find_pymdfu_executable : M pymdfu_cmd :=
  or_else
    (pymdfu_path <- which "pymdfu" ;;
     return_if_found pymdfu_path)
 (or_else
    (if (sys_platform env =? "win32")%string then
       pymdfu_path <- which "pymdfu.exe" ;;
       return_if_found pymdfu_path
     else ret None)
 (or_else
    (if (sys_platform env =? "win32")%string then
       let python_scripts :=
         os_path_join env (os_path_dirname env (sys_executable env))
           "Scripts" in
       let pymdfu_exe := os_path_join env python_scripts "pymdfu.exe" in
       exe_exists <- path_exists pymdfu_exe ;;
       if exe_exists then ret (Some (CmdStr pymdfu_exe))
       else
         let pymdfu_script := os_path_join env python_scripts "pymdfu" in
         script_exists <- path_exists pymdfu_script ;;
         if script_exists then ret (Some (CmdStr pymdfu_script))
         else ret None
     else ret None)
 (or_else
    (try_except
       (returncode <- run_probe [sys_executable env; "-m"; "pymdfu";
                                 "--help"] ;;
        if returncode =? 0
        then ret (Some (CmdList [sys_executable env; "-m"; "pymdfu"]))
        else ret None)
       is_probe_error
       (fun _ => ret None))
    (ret (CmdStr "pymdfu"))))).

(** *** run_firmware_update *)

Record Args : Type := {
  image : string;
  port : string;
  dev_id : Z;
  retry : bool
}.

Definition run_firmware_update (args : Args) : M unit :=
  if negb (truthy (image args)) then
    raise (ValueError "Missing firmware image file path")
  else
    (if negb (retry args) then
       ntn_dongle <- NTNModbusMaster_init (dev_id args) (port args) 115200 ;;
       valid_passwd <- set_registers ntn_dongle 0x0000 (Some [0; 0; 0; 0]) ;;
       log Info (TextBool "Password valid: " valid_passwd) ;;
       if negb valid_passwd then
         raise (RuntimeError "Failed to set password or password invalid.")
       else
         set_register ntn_dongle 0xFFD0 (Some 0xAA55) ;;
         set_register ntn_dongle 0xD000 (Some 0xAA55) ;;
         set_register ntn_dongle 0xFD00 (Some 0xAA55) ;;
         sleep 1 ;;
         close ntn_dongle ;;
         sleep (1 # 2)
     else
       log Info (Text "Retry mode: Skipping Modbus configuration, device should already be in bootloader mode") ;;
       sleep (1 # 2)) ;;
    pymdfu_cmd <- find_pymdfu_executable ;;
    log Info (TextCmd "Using pymdfu command: " pymdfu_cmd) ;;
    let command :=
      match pymdfu_cmd with
      | CmdList argv =>
          argv ++ ["update"; "--tool"; "serial"; "--port"; port args;
                   "--baudrate"; "115200"; "--image"; image args;
                   "-v"; "debug"]
      | CmdStr path =>
          [path; "update"; "--tool"; "serial"; "--port"; port args;
           "--baudrate"; "115200"; "--image"; image args; "-v"; "debug"]
      end in
    process <- Popen command ;;
    for_stdout process (fun line => log Info (Rstrip line)) ;;
    return_code <- wait process ;;
    if negb (return_code =? 0) then
      raise (CalledProcessError return_code command)
    else ret tt.

End Program.

(** ** Simulated worlds *)

(** A device that accepts every request, a PATH that holds pymdfu, and a
    transfer child that prints two lines and exits with [status]. *)
Definition sim_env (status : Z) : Env := {|
  serial_connect := fun _ _ => None;
  transport_execute := fun _ _ _ _ _ _ => inr [];
  transport_close := fun _ => None;
  shutil_which := fun _ name =>
    if (name =? "pymdfu")%string then Some "/usr/bin/pymdfu" else None;
  sys_platform := "linux";
  sys_executable := "/usr/bin/python3";
  os_path_dirname := fun p => p;
  os_path_join := fun a b => (a ++ "/" ++ b)%string;
  os_path_exists := fun _ _ => false;
  subprocess_run := fun _ _ => inl FileNotFoundError;
  subprocess_Popen := fun _ _ =>
    inr {| stdout_lines := ["Starting update "; "Done"];
           stdout_fault := None;
           child_status := status |}
|}.

Definition fresh_args : Args :=
  {| image := "fw.bin"; port := "/dev/ttyUSB0"; dev_id := 1; retry := false |}.

(** [env] with another device behind the transport. *)
Definition with_transport (env : Env)
    (device : trace -> Z -> Z -> Z -> Z -> output_value -> exn + list Z)
  : Env := {|
  serial_connect := serial_connect env;
  transport_execute := device;
  transport_close := transport_close env;
  shutil_which := shutil_which env;
  sys_platform := sys_platform env;
  sys_executable := sys_executable env;
  os_path_dirname := os_path_dirname env;
  os_path_join := os_path_join env;
  os_path_exists := os_path_exists env;
  subprocess_run := subprocess_run env;
  subprocess_Popen := subprocess_Popen env
|}.

(** The device answers the password-clear write-multiple with a Modbus
    exception and accepts everything else. *)
Definition locked_env : Env :=
  with_transport (sim_env 0)
    (fun _ _ fc _ _ _ =>
       if fc =? cst.WRITE_MULTIPLE_REGISTERS then inl (ModbusError 4)
       else inr []).

(** Nothing answers on the bus. *)
Definition silent_env : Env :=
  with_transport (sim_env 0)
    (fun _ _ _ _ _ _ => inl (OtherException "ModbusInvalidResponseError")).

(** Every read returns the fixed tuple [regs]. *)
Definition reading_env (regs : list Z) : Env :=
  with_transport (sim_env 0) (fun _ _ _ _ _ _ => inr regs).

Definition dongle : NTNModbusMaster := {| slave_addr := 1 |}.

(** ** Observing a trace *)

Definition is_register_op (ev : event) : bool :=
  match ev with EvExecute _ _ _ _ _ => true | _ => false end.

Definition is_connect (ev : event) : bool :=
  match ev with EvConnect _ => true | _ => false end.

Definition is_close (ev : event) : bool :=
  match ev with EvMasterClose => true | _ => false end.

(** Anything that touches the Modbus master or its serial port. *)
Definition is_device_event (ev : event) : bool :=
  is_connect ev || is_register_op ev || is_close ev.

Definition register_ops (tr : trace) : trace := filter is_register_op tr.

Definition device_events (tr : trace) : trace := filter is_device_event tr.

(** The events appended to [t] on the way to [t']. *)
Definition since (t t' : trace) : trace := skipn (List.length t) t'.


(** The four writes of the unlock sequence, as the transport sees them. *)
Definition password_clear (slave : Z) : event :=
  EvExecute slave cst.WRITE_MULTIPLE_REGISTERS 0x0000 0 (OvSeq [0; 0; 0; 0]).
Definition engineering_mode (slave : Z) : event :=
  EvExecute slave cst.WRITE_SINGLE_REGISTER 0xFFD0 0 (OvInt 0xAA55).
Definition bootloader_mode (slave : Z) : event :=
  EvExecute slave cst.WRITE_SINGLE_REGISTER 0xD000 0 (OvInt 0xAA55).
Definition reset_mcu (slave : Z) : event :=
  EvExecute slave cst.WRITE_SINGLE_REGISTER 0xFD00 0 (OvInt 0xAA55).

(** The unlock sequence in the order the device must see it. *)
Definition unlock_writes (slave : Z) : trace :=
  [password_clear slave; engineering_mode slave; bootloader_mode slave;
   reset_mcu slave].

Definition is_log (ev : event) : bool :=
  match ev with EvLog _ _ => true | _ => false end.

(** The configuration [run_firmware_update] connects with. *)
Definition update_config (args : Args) : serial_config :=
  {| cfg_port := port args; cfg_baudrate := 115200; cfg_bytesize := 8;
     cfg_parity := "N"; cfg_stopbits := 1; cfg_xonxoff := 0;
     cfg_timeout := 1; cfg_verbose := false |}.

(** The trace of a fresh attempt once the connection is established. *)
Definition connected (args : Args) (t : trace) : trace :=
  t ++ [EvConnect (update_config args); EvLog Info (Text "NTN dongle init!")].

(** The arguments every transfer invocation ends with. *)
Definition update_arguments (args : Args) : list string :=
  ["update"; "--tool"; "serial"; "--port"; port args; "--baudrate"; "115200";
   "--image"; image args; "-v"; "debug"].

(** Lines 172-209 of [run_firmware_update], the hand-over to pymdfu, under a
    name of their own; [run_firmware_update_phases] shows that they are the
    tail of the function. *)
Definition invoke_transfer (env : Env) (args : Args) : M unit :=
  pymdfu_cmd <- find_pymdfu_executable env ;;
  log Info (TextCmd "Using pymdfu command: " pymdfu_cmd) ;;
  let command :=
    match pymdfu_cmd with
    | CmdList argv => argv ++ update_arguments args
    | CmdStr path => path :: update_arguments args
    end in
  process <- Popen env command ;;
  for_stdout process (fun line => log Info (Rstrip line)) ;;
  return_code <- wait process ;;
  if negb (return_code =? 0) then
    raise (CalledProcessError return_code command)
  else ret tt.

(** Lines 143-166, the fresh branch. *)
Definition unlock_and_release (env : Env) (args : Args) : M unit :=
  ntn_dongle <- NTNModbusMaster_init env (dev_id args) (port args) 115200 ;;
  valid_passwd <- set_registers env ntn_dongle 0x0000 (Some [0; 0; 0; 0]) ;;
  log Info (TextBool "Password valid: " valid_passwd) ;;
  if negb valid_passwd then
    raise (RuntimeError "Failed to set password or password invalid.")
  else
    set_register env ntn_dongle 0xFFD0 (Some 0xAA55) ;;
    set_register env ntn_dongle 0xD000 (Some 0xAA55) ;;
    set_register env ntn_dongle 0xFD00 (Some 0xAA55) ;;
    sleep 1 ;;
    close env ntn_dongle ;;
    sleep (1 # 2).

Definition retry_notice : event :=
  EvLog Info (Text "Retry mode: Skipping Modbus configuration, device should already be in bootloader mode").

(** Lines 142-170, what precedes the hand-over once the image path is
    known to be present: the fresh branch or the retry branch. *)
Definition prelude (env : Env) (args : Args) : M unit :=
  if negb (retry args) then unlock_and_release env args
  else emit retry_notice ;; sleep (1 # 2).

(** ** The shapes a hand-over to pymdfu can take *)

Definition is_lookup (ev : event) : bool :=
  match ev with EvWhich _ | EvExists _ | EvRun _ => true | _ => false end.

Definition is_process_event (ev : event) : bool :=
  match ev with EvPopen _ | EvWait _ => true | _ => false end.

Definition command_of (cmd : pymdfu_cmd) (args : Args) : list string :=
  match cmd with
  | CmdList argv => argv ++ update_arguments args
  | CmdStr path => path :: update_arguments args
  end.

Definition announce (cmd : pymdfu_cmd) : event :=
  EvLog Info (TextCmd "Using pymdfu command: " cmd).

Definition output_line (line : string) : event :=
  EvLog Info (Rstrip line).

Definition exit_outcome (return_code : Z) (command : list string)
  : outcome unit :=
  if return_code =? 0 then Return tt
  else Raise (CalledProcessError return_code command).

(** What follows a [Popen] that returned [process]: the relayed lines and,
    when the output was read to its end, the wait; and how the attempt
    ends. *)
Definition relayed (process : child) : trace :=
  map output_line (stdout_lines process)
  ++ match stdout_fault process with
     | Some _ => []
     | None => [EvWait (child_status process)]
     end.

Definition child_outcome (process : child) (command : list string)
  : outcome unit :=
  match stdout_fault process with
  | Some e => Raise e
  | None => exit_outcome (child_status process) command
  end.

(** Started on trace [t], the hand-over ends in one of four ways: the search
    for the executable raises; [Popen] raises; reading the child's output
    raises after some lines were relayed; or the output is relayed to its
    end and the exit status of the child decides the outcome. *)
Inductive transfer_run (args : Args) (t : trace)
  : outcome unit * trace -> Prop :=
| TransferUnresolved lookups e :
    Forall (fun ev => is_lookup ev = true) lookups ->
    transfer_run args t (Raise e, t ++ lookups)
| TransferNotSpawned lookups cmd e :
    Forall (fun ev => is_lookup ev = true) lookups ->
    transfer_run args t
      (Raise e, t ++ lookups ++ [announce cmd; EvPopen (command_of cmd args)])
| TransferRelayFailed lookups cmd process e :
    Forall (fun ev => is_lookup ev = true) lookups ->
    stdout_fault process = Some e ->
    transfer_run args t
      (Raise e,
       t ++ lookups ++ [announce cmd; EvPopen (command_of cmd args)]
         ++ map output_line (stdout_lines process))
| TransferExited lookups cmd process :
    Forall (fun ev => is_lookup ev = true) lookups ->
    stdout_fault process = None ->
    transfer_run args t
      (exit_outcome (child_status process) (command_of cmd args),
       t ++ lookups ++ [announce cmd; EvPopen (command_of cmd args)]
         ++ map output_line (stdout_lines process)
         ++ [EvWait (child_status process)]).

(** ** The entry point *)

(** [str(n)] of an int, as an f-string prints it. *)
Definition str_int (n : Z) : string := NilZero.string_of_int (Z.to_int n).

Definition log_args (args : Args) : M unit :=
  log Info (Text ("Image Path: " ++ image args)%string) ;;
  log Info (Text ("Port: " ++ port args)%string) ;;
  log Info (Text ("Device Modbus ID: " ++ str_int (dev_id args))%string) ;;
  log Info (TextBool "Retry: " (retry args)).

(** [main], from the point where [parse_arguments] has produced [args] and
    [get_logger] the console logger. *)
Definition main (env : Env) (args : Args) : M unit :=
  log_args args ;;
  try_except (run_firmware_update env args)
    is_Exception
    (fun e => log Error (TextExn "Firmware update failed: " e) ;; raise e).

(** What [log_args] appends. *)
Definition argument_lines (args : Args) : trace :=
  [EvLog Info (Text ("Image Path: " ++ image args)%string);
   EvLog Info (Text ("Port: " ++ port args)%string);
   EvLog Info (Text ("Device Modbus ID: " ++ str_int (dev_id args))%string);
   EvLog Info (TextBool "Retry: " (retry args))].

(** ** More observers and worlds *)

Definition is_sleep (ev : event) : bool :=
  match ev with EvSleep _ => true | _ => false end.

(** The events that matter for handing the serial port over: what touches
    the master, and the settle delays. *)
Definition handoff_events (tr : trace) : trace :=
  filter (fun ev => is_device_event ev || is_sleep ev) tr.

Definition process_events (tr : trace) : trace :=
  filter is_process_event tr.

(** What precedes the spawn of pymdfu on the device side, settle delays
    included: the whole unlock sequence, the wait for the reset, the close
    and the wait for the port; in retry mode the short wait alone. *)
Definition handoff_of (args : Args) : trace :=
  if retry args then [EvSleep (1 # 2)]
  else EvConnect (update_config args) :: unlock_writes (dev_id args)
         ++ [EvSleep 1; EvMasterClose; EvSleep (1 # 2)].

(** The probe of the module fallback and the invocation it stands for. *)
Definition probe_argv (env : Env) : list string :=
  [sys_executable env; "-m"; "pymdfu"; "--help"].

Definition module_argv (env : Env) : list string :=
  [sys_executable env; "-m"; "pymdfu"].

(** The two candidates in the Scripts directory of the interpreter. *)
Definition scripts_exe (env : Env) : string :=
  os_path_join env
    (os_path_join env (os_path_dirname env (sys_executable env)) "Scripts")
    "pymdfu.exe".

Definition scripts_script (env : Env) : string :=
  os_path_join env
    (os_path_join env (os_path_dirname env (sys_executable env)) "Scripts")
    "pymdfu".

Definition is_run (ev : event) : bool :=
  match ev with EvRun _ => true | _ => false end.

(** The transfer child prints one line and then bytes that do not decode;
    it exits with [status]. *)
Definition garbled_env (status : Z) : Env := {|
  serial_connect := serial_connect (sim_env 0);
  transport_execute := transport_execute (sim_env 0);
  transport_close := transport_close (sim_env 0);
  shutil_which := shutil_which (sim_env 0);
  sys_platform := sys_platform (sim_env 0);
  sys_executable := sys_executable (sim_env 0);
  os_path_dirname := os_path_dirname (sim_env 0);
  os_path_join := os_path_join (sim_env 0);
  os_path_exists := os_path_exists (sim_env 0);
  subprocess_run := subprocess_run (sim_env 0);
  subprocess_Popen := fun _ _ =>
    inr {| stdout_lines := ["Starting update"];
           stdout_fault := Some (OtherException "UnicodeDecodeError");
           child_status := status |}
|}.

(** The serial port cannot be opened. *)
Definition unplugged_env (e : exn) : Env := {|
  serial_connect := fun _ _ => Some e;
  transport_execute := transport_execute (sim_env 0);
  transport_close := transport_close (sim_env 0);
  shutil_which := shutil_which (sim_env 0);
  sys_platform := sys_platform (sim_env 0);
  sys_executable := sys_executable (sim_env 0);
  os_path_dirname := os_path_dirname (sim_env 0);
  os_path_join := os_path_join (sim_env 0);
  os_path_exists := os_path_exists (sim_env 0);
  subprocess_run := subprocess_run (sim_env 0);
  subprocess_Popen := subprocess_Popen (sim_env 0)
|}.

(** pymdfu is not on PATH; the probe of the module answers [probe] and
    spawning answers [spawn]. *)
Definition bare_env (platform : string) (probe : exn + Z)
    (spawn : exn + child) : Env := {|
  serial_connect := serial_connect (sim_env 0);
  transport_execute := transport_execute (sim_env 0);
  transport_close := transport_close (sim_env 0);
  shutil_which := fun _ _ => None;
  sys_platform := platform;
  sys_executable := "python";
  os_path_dirname := fun _ => "C:";
  os_path_join := fun a b => (a ++ "/" ++ b)%string;
  os_path_exists := fun _ p => (p =? "C:/Scripts/pymdfu")%string;
  subprocess_run := fun _ _ => probe;
  subprocess_Popen := fun _ _ => spawn
|}.

(** [emits P m]: whatever [m] returns or raises, it only appends events, and
    every event it appends satisfies [P]. *)
Definition emits {A} (P : event -> Prop) (m : M A) : Prop :=
  forall t, exists new, snd (m t) = t ++ new /\ Forall P new.

(** ** Traces only grow *)

Lemma since_app (t new : trace) : since t (t ++ new) = new.
Proof.
  unfold since. induction t as [|ev t IH]; simpl; [reflexivity | exact IH].
Qed.

Lemma since_refl (t : trace) : since t t = [].
Proof.
  rewrite <- (app_nil_r t) at 2. apply since_app.
Qed.

Section Emits.

Variable P : event -> Prop.

Lemma emits_ret {A} (a : A) : emits P (ret a).
Proof. intro t. exists []. simpl. now rewrite app_nil_r. Qed.

Lemma emits_raise {A} (e : exn) : emits P (@raise A e).
Proof. intro t. exists []. simpl. now rewrite app_nil_r. Qed.

Lemma emits_emit (ev : event) : P ev -> emits P (emit ev).
Proof. intros H t. exists [ev]. simpl. auto. Qed.

Lemma emits_bind {A B} (m : M A) (k : A -> M B) :
  emits P m -> (forall a, emits P (k a)) -> emits P (bind m k).
Proof.
  intros Hm Hk t. unfold bind.
  destruct (Hm t) as [n1 [E1 F1]].
  destruct (m t) as [[a|e] t1]; simpl in E1; subst t1.
  - destruct (Hk a (t ++ n1)) as [n2 [E2 F2]].
    exists (n1 ++ n2). rewrite E2, app_assoc. split; [reflexivity|].
    apply Forall_app; auto.
  - exists n1. auto.
Qed.

Lemma emits_try_except {A} (body : M A) classes (handler : exn -> M A) :
  emits P body -> (forall e, emits P (handler e)) ->
  emits P (try_except body classes handler).
Proof.
  intros Hm Hh t. unfold try_except.
  destruct (Hm t) as [n1 [E1 F1]].
  destruct (body t) as [[a|e] t1]; simpl in E1; subst t1.
  - exists n1. auto.
  - destruct (classes e).
    + destruct (Hh e (t ++ n1)) as [n2 [E2 F2]].
      exists (n1 ++ n2). rewrite E2, app_assoc. split; [reflexivity|].
      apply Forall_app; auto.
    + exists n1. auto.
Qed.

Lemma emits_for_each {A} (xs : list A) (body : A -> M unit) :
  (forall x, emits P (body x)) -> emits P (for_each xs body).
Proof.
  intro Hb. induction xs as [|x xs IH]; simpl.
  - apply emits_ret.
  - apply emits_bind; auto.
Qed.

Lemma emits_or_else {A} (block : M (option A)) (rest : M A) :
  emits P block -> emits P rest -> emits P (or_else block rest).
Proof.
  intros Hb Hr. unfold or_else. apply emits_bind; [exact Hb|].
  intros [a|]; [apply emits_ret | exact Hr].
Qed.

End Emits.

(** ** The device controller, operation by operation *)

Lemma all_zero_spec (vs : list Z) :
  forallb (fun x => x =? 0) vs = true <-> Forall (fun x => x = 0) vs.
Proof.
  rewrite forallb_forall, Forall_forall.
  split; intros H x Hx; specialize (H x Hx); lia.
Qed.

Lemma set_register_run env self reg v t :
  set_register env self reg (Some v) t =
  let request :=
    EvExecute (slave_addr self) cst.WRITE_SINGLE_REGISTER reg 0 (OvInt v) in
  match transport_execute env t (slave_addr self) cst.WRITE_SINGLE_REGISTER
          reg 0 (OvInt v) with
  | inr _ => (Return true, t ++ [request])
  | inl e => (Return false, t ++ [request; EvLog Info (OfExn e)])
  end.
Proof.
  unfold set_register, try_except, bind, master_execute, log, emit, ret.
  destruct (transport_execute env t _ _ _ _ _); simpl;
    [rewrite <- app_assoc|]; reflexivity.
Qed.

Lemma set_registers_run env self reg vs t :
  set_registers env self reg (Some vs) t =
  let request :=
    EvExecute (slave_addr self) cst.WRITE_MULTIPLE_REGISTERS reg 0
      (OvSeq vs) in
  match transport_execute env t (slave_addr self)
          cst.WRITE_MULTIPLE_REGISTERS reg 0 (OvSeq vs) with
  | inr _ => (Return true, t ++ [request])
  | inl e => (Return false, t ++ [request; EvLog Info (OfExn e)])
  end.
Proof.
  unfold set_registers, try_except, bind, master_execute, log, emit, ret.
  destruct (transport_execute env t _ _ _ _ _); simpl;
    [rewrite <- app_assoc|]; reflexivity.
Qed.

Lemma close_run env self t :
  close env self t =
  match transport_close env t with
  | None =>
      (Return tt,
       t ++ [EvMasterClose; EvLog Info (Text "NTN dongle connection closed!")])
  | Some e =>
      (Return tt,
       t ++ [EvMasterClose;
             EvLog Error (TextExn "Error closing connection: " e)])
  end.
Proof.
  unfold close, try_except, bind, master_close, log, emit.
  destruct (transport_close env t); simpl; rewrite <- app_assoc; reflexivity.
Qed.

Lemma init_run env slave port baud t :
  NTNModbusMaster_init env slave port baud t =
  let cfg := {| cfg_port := port; cfg_baudrate := baud; cfg_bytesize := 8;
                cfg_parity := "N"; cfg_stopbits := 1; cfg_xonxoff := 0;
                cfg_timeout := 1; cfg_verbose := false |} in
  match serial_connect env t cfg with
  | None =>
      (Return {| slave_addr := slave |},
       t ++ [EvConnect cfg; EvLog Info (Text "NTN dongle init!")])
  | Some e =>
      (Raise e,
       if is_ModbusError e
       then t ++ [EvConnect cfg; EvLog Error (ExnCode e (get_exception_code e))]
       else t ++ [EvConnect cfg])
  end.
Proof.
  unfold NTNModbusMaster_init, try_except, bind, rtu_master, log, emit, ret,
    raise.
  destruct (serial_connect env t _) as [e|]; simpl.
  - destruct (is_ModbusError e); simpl; [rewrite <- app_assoc|]; reflexivity.
  - rewrite <- app_assoc. reflexivity.
Qed.

Lemma read_register_run env self reg fc t :
  read_register env self reg fc t =
  let request := EvExecute (slave_addr self) fc reg 1 (OvInt 0) in
  match transport_execute env t (slave_addr self) fc reg 1 (OvInt 0) with
  | inl e => (Return None, t ++ [request; EvLog Info (OfExn e)])
  | inr [] => (Return None, t ++ [request; EvLog Info (OfExn IndexError)])
  | inr (v :: _) => (Return (if v =? 0 then None else Some v), t ++ [request])
  end.
Proof.
  unfold read_register, try_except, bind, master_execute, index, log, emit.
  destruct (transport_execute env t _ _ _ _ _) as [e|[|v rest]]; simpl.
  - now rewrite <- app_assoc.
  - now rewrite <- app_assoc.
  - now destruct (v =? 0).
Qed.

Lemma read_registers_run env self reg num fc t :
  read_registers env self reg num fc t =
  let request := EvExecute (slave_addr self) fc reg num (OvInt 0) in
  match transport_execute env t (slave_addr self) fc reg num (OvInt 0) with
  | inl e => (Return None, t ++ [request; EvLog Info (OfExn e)])
  | inr values =>
      (Return (if forallb (fun x => x =? 0) values then None
               else Some values),
       t ++ [request])
  end.
Proof.
  unfold read_registers, try_except, bind, master_execute, log, emit.
  destruct (transport_execute env t _ _ _ _ _) as [e|values]; simpl.
  - now rewrite <- app_assoc.
  - now destruct (forallb _ values).
Qed.

(** C5: a write whose value argument is None returns False and leaves the
    trace as it was: neither the transport nor the logger is called.  This
    holds for [set_register] and for [set_registers]. *)
Theorem write_of_none_is_noop env self reg t :
  set_register env self reg None t = (Return false, t) /\
  set_registers env self reg None t = (Return false, t).
Proof. split; reflexivity. Qed.

(** C6: a read never raises.  It returns None when the transport raises and
    when every register the transport returned is zero; otherwise
    [read_registers] returns the tuple it received and [read_register], on
    the one register it asked for, returns that register's value. *)
Theorem read_absent_on_fault_or_zero env self reg num fc t :
  let single :=
    transport_execute env t (slave_addr self) fc reg 1 (OvInt 0) in
  let multiple :=
    transport_execute env t (slave_addr self) fc reg num (OvInt 0) in
  (exists o, fst (read_register env self reg fc t) = Return o) /\
  (exists o, fst (read_registers env self reg num fc t) = Return o) /\
  (forall e, single = inl e ->
     fst (read_register env self reg fc t) = Return None) /\
  (forall e, multiple = inl e ->
     fst (read_registers env self reg num fc t) = Return None) /\
  (forall vs, single = inr vs -> Forall (fun x => x = 0) vs ->
     fst (read_register env self reg fc t) = Return None) /\
  (forall vs, multiple = inr vs -> Forall (fun x => x = 0) vs ->
     fst (read_registers env self reg num fc t) = Return None) /\
  (forall v, single = inr [v] -> v <> 0 ->
     fst (read_register env self reg fc t) = Return (Some v)) /\
  (forall vs, multiple = inr vs -> ~ Forall (fun x => x = 0) vs ->
     fst (read_registers env self reg num fc t) = Return (Some vs)).
Proof.
  intros single multiple. subst single multiple.
  rewrite read_register_run, read_registers_run. cbv zeta.
  destruct (transport_execute env t (slave_addr self) fc reg 1 (OvInt 0))
    as [e1|vs1];
  destruct (transport_execute env t (slave_addr self) fc reg num (OvInt 0))
    as [en|vsn].
  all: repeat match goal with |- _ /\ _ => split end.
  all: try solve [eexists; reflexivity | discriminate | reflexivity].
  all: try solve [destruct vs1; eexists; reflexivity].
  all: try solve [intros ? [= <-] Hz; destruct Hz as [|v ? ->]; reflexivity].
  all: try solve [intros ? [= <-] Hz; apply all_zero_spec in Hz;
                  simpl; now rewrite Hz].
  all: try solve [intros v [= ->] Hv; simpl;
                  destruct (Z.eqb_spec v 0); [contradiction | reflexivity]].
  all: intros ? [= <-] Hz; simpl;
    destruct (forallb (fun x => x =? 0) vsn) eqn:F;
    [exfalso; apply Hz, all_zero_spec, F | reflexivity].
Qed.

Lemma read_absent_on_fault_or_zero_witness :
  fst (read_register (reading_env [7]) dongle 0x0100 cst.READ_INPUT_REGISTERS
         []) = Return (Some 7) /\
  fst (read_registers (reading_env [0; 7]) dongle 0x0100 2
         cst.READ_INPUT_REGISTERS []) = Return (Some [0; 7]) /\
  fst (read_register (reading_env [0]) dongle 0x0100 cst.READ_INPUT_REGISTERS
         []) = Return None /\
  fst (read_registers (reading_env [0; 0]) dongle 0x0100 2
         cst.READ_INPUT_REGISTERS []) = Return None /\
  fst (read_register silent_env dongle 0x0100 cst.READ_INPUT_REGISTERS [])
    = Return None /\
  fst (read_registers silent_env dongle 0x0100 2 cst.READ_INPUT_REGISTERS [])
    = Return None.
Proof.
  repeat match goal with |- _ /\ _ => split end.
  - apply (read_absent_on_fault_or_zero (reading_env [7]) dongle 0x0100 1
             cst.READ_INPUT_REGISTERS []); [reflexivity | lia].
  - apply (read_absent_on_fault_or_zero (reading_env [0; 7]) dongle 0x0100 2
             cst.READ_INPUT_REGISTERS []); [reflexivity |].
    intro H. inversion H as [|? ? _ H']. inversion H' as [|? ? H7 _].
    discriminate H7.
  - apply (read_absent_on_fault_or_zero (reading_env [0]) dongle 0x0100 1
             cst.READ_INPUT_REGISTERS [] ) with (vs := [0]);
      [reflexivity | repeat constructor].
  - apply (read_absent_on_fault_or_zero (reading_env [0; 0]) dongle 0x0100 2
             cst.READ_INPUT_REGISTERS []) with (vs := [0; 0]);
      [reflexivity | repeat constructor].
  - apply (read_absent_on_fault_or_zero silent_env dongle 0x0100 1
             cst.READ_INPUT_REGISTERS [])
      with (e := OtherException "ModbusInvalidResponseError").
    reflexivity.
  - apply (read_absent_on_fault_or_zero silent_env dongle 0x0100 2
             cst.READ_INPUT_REGISTERS [])
      with (e := OtherException "ModbusInvalidResponseError").
    reflexivity.
Defined.

(** C8, as the code has it: an empty tuple is not None, so [set_registers]
    hands the empty payload to the transport; it returns True when the
    transport accepts the request and False, after logging, only when the
    transport raises. *)
Theorem write_of_empty_reaches_transport env self reg t :
  set_registers env self reg (Some []) t =
  let request :=
    EvExecute (slave_addr self) cst.WRITE_MULTIPLE_REGISTERS reg 0 (OvSeq [])
  in
  match transport_execute env t (slave_addr self)
          cst.WRITE_MULTIPLE_REGISTERS reg 0 (OvSeq []) with
  | inr _ => (Return true, t ++ [request])
  | inl e => (Return false, t ++ [request; EvLog Info (OfExn e)])
  end.
Proof. apply set_registers_run. Qed.

(** C8 as it was stated fails on a device that accepts the request: the write
    of an empty payload is issued and reported as a success. *)
Lemma write_of_empty_is_not_noop :
  let run := set_registers (sim_env 0) dongle 0x0000 (Some []) [] in
  fst run = Return true /\
  snd run = [EvExecute 1 cst.WRITE_MULTIPLE_REGISTERS 0x0000 0 (OvSeq [])] /\
  ~ (fst run = Return false /\ snd run = []).
Proof.
  repeat split. intros [H _]. discriminate H.
Qed.

(** C9: zero is a value for a write.  [set_register] with 0 and
    [set_registers] with a payload of [n] zero words always issue the
    transport write, and return True whenever the transport does not raise;
    a read that receives the single word 0, in contrast, returns None. *)
Theorem write_of_zero_is_performed env self reg n fc t :
  let single :=
    EvExecute (slave_addr self) cst.WRITE_SINGLE_REGISTER reg 0 (OvInt 0) in
  let block :=
    EvExecute (slave_addr self) cst.WRITE_MULTIPLE_REGISTERS reg 0
      (OvSeq (repeat 0 n)) in
  (exists note,
     snd (set_register env self reg (Some 0) t) = t ++ single :: note) /\
  (exists note,
     snd (set_registers env self reg (Some (repeat 0 n)) t)
     = t ++ block :: note) /\
  (forall r,
     transport_execute env t (slave_addr self) cst.WRITE_SINGLE_REGISTER
       reg 0 (OvInt 0) = inr r ->
     set_register env self reg (Some 0) t = (Return true, t ++ [single])) /\
  (forall r,
     transport_execute env t (slave_addr self) cst.WRITE_MULTIPLE_REGISTERS
       reg 0 (OvSeq (repeat 0 n)) = inr r ->
     set_registers env self reg (Some (repeat 0 n)) t
     = (Return true, t ++ [block])) /\
  (transport_execute env t (slave_addr self) fc reg 1 (OvInt 0) = inr [0] ->
   fst (read_register env self reg fc t) = Return None).
Proof.
  cbv zeta.
  rewrite set_register_run, set_registers_run, read_register_run. cbv zeta.
  repeat match goal with |- _ /\ _ => split end.
  - destruct (transport_execute env t _ _ reg 0 (OvInt 0));
      eexists; reflexivity.
  - destruct (transport_execute env t _ _ reg 0 (OvSeq _));
      eexists; reflexivity.
  - intros r ->. reflexivity.
  - intros r ->. reflexivity.
  - intros ->. reflexivity.
Qed.

Lemma write_of_zero_is_performed_witness :
  set_register (sim_env 0) dongle 0xFFD0 (Some 0) []
  = (Return true, [EvExecute 1 cst.WRITE_SINGLE_REGISTER 0xFFD0 0 (OvInt 0)])
  /\
  set_registers (sim_env 0) dongle 0x0000 (Some [0; 0; 0; 0]) []
  = (Return true, [password_clear 1]) /\
  fst (read_register (reading_env [0]) dongle 0xFFD0
         cst.READ_INPUT_REGISTERS []) = Return None.
Proof.
  repeat match goal with |- _ /\ _ => split end.
  - apply (write_of_zero_is_performed (sim_env 0) dongle 0xFFD0 4%nat
             cst.READ_INPUT_REGISTERS []) with (r := []).
    reflexivity.
  - apply (write_of_zero_is_performed (sim_env 0) dongle 0x0000 4%nat
             cst.READ_INPUT_REGISTERS []) with (r := []).
    reflexivity.
  - apply (write_of_zero_is_performed (reading_env [0]) dongle 0xFFD0 4%nat
             cst.READ_INPUT_REGISTERS []).
    reflexivity.
Defined.

(** ** What each library call appends *)

Section Primitives.

Variable P : event -> Prop.
Variable env : Env.

Lemma emits_master_execute slave fc reg quantity ov :
  P (EvExecute slave fc reg quantity ov) ->
  emits P (master_execute env slave fc reg quantity ov).
Proof.
  intros H t. exists [EvExecute slave fc reg quantity ov].
  unfold master_execute. destruct (transport_execute env t _ _ _ _ _); auto.
Qed.

Lemma emits_master_close : P EvMasterClose -> emits P (master_close env).
Proof.
  intros H t. exists [EvMasterClose].
  unfold master_close. destruct (transport_close env t); auto.
Qed.

Lemma emits_rtu_master cfg : P (EvConnect cfg) -> emits P (rtu_master env cfg).
Proof.
  intros H t. exists [EvConnect cfg].
  unfold rtu_master. destruct (serial_connect env t cfg); auto.
Qed.

Lemma emits_which name : P (EvWhich name) -> emits P (which env name).
Proof. intros H t. exists [EvWhich name]. auto. Qed.

Lemma emits_path_exists p : P (EvExists p) -> emits P (path_exists env p).
Proof. intros H t. exists [EvExists p]. auto. Qed.

Lemma emits_run_probe argv : P (EvRun argv) -> emits P (run_probe env argv).
Proof.
  intros H t. exists [EvRun argv].
  unfold run_probe. destruct (subprocess_run env t argv); auto.
Qed.

Lemma emits_log lv m : P (EvLog lv m) -> emits P (log lv m).
Proof. apply emits_emit. Qed.

Lemma emits_sleep s : P (EvSleep s) -> emits P (sleep s).
Proof. apply emits_emit. Qed.

End Primitives.

(** Breaks a program of the monad into its calls. *)
Ltac emits_step :=
  lazymatch goal with
  | |- forall _, _ => intro
  | |- emits _ (bind _ _) => apply emits_bind
  | |- emits _ (try_except _ _ _) => apply emits_try_except
  | |- emits _ (or_else _ _) => apply emits_or_else
  | |- emits _ (for_each _ _) => apply emits_for_each
  | |- emits _ (ret _) => apply emits_ret
  | |- emits _ (raise _) => apply emits_raise
  | |- emits _ (master_execute _ _ _ _ _ _) => apply emits_master_execute
  | |- emits _ (master_close _) => apply emits_master_close
  | |- emits _ (rtu_master _ _) => apply emits_rtu_master
  | |- emits _ (which _ _) => apply emits_which
  | |- emits _ (path_exists _ _) => apply emits_path_exists
  | |- emits _ (run_probe _ _) => apply emits_run_probe
  | |- emits _ (log _ _) => apply emits_log
  | |- emits _ (sleep _) => apply emits_sleep
  | |- emits _ (emit _) => apply emits_emit
  | |- emits _ (if ?b then _ else _) => destruct b
  | |- emits _ (match ?x with _ => _ end) => destruct x
  | |- _ = _ => reflexivity
  end.

Lemma find_pymdfu_executable_emits env :
  emits (fun ev => is_lookup ev = true) (find_pymdfu_executable env).
Proof.
  unfold find_pymdfu_executable, return_if_found. repeat emits_step.
Qed.

Lemma prelude_emits env args :
  emits (fun ev => is_process_event ev = false) (prelude env args).
Proof.
  unfold prelude, unlock_and_release, NTNModbusMaster_init, set_registers,
    set_register, close.
  repeat emits_step.
Qed.

Lemma for_each_output_line (lines : list string) (t : trace) :
  for_each lines (fun line => log Info (Rstrip line)) t
  = (Return tt, t ++ map output_line lines).
Proof.
  revert t. induction lines as [|line lines IH]; intro t; simpl.
  - unfold ret. now rewrite app_nil_r.
  - unfold bind, log, emit. rewrite IH, <- app_assoc. reflexivity.
Qed.

Lemma for_stdout_run (process : child) (t : trace) :
  for_stdout process (fun line => log Info (Rstrip line)) t
  = (match stdout_fault process with
     | Some e => Raise e
     | None => Return tt
     end,
     t ++ map output_line (stdout_lines process)).
Proof.
  unfold for_stdout, bind. rewrite for_each_output_line.
  now destruct (stdout_fault process).
Qed.

(** The hand-over down to the answer of [Popen]. *)
Lemma invoke_transfer_unfold env args t :
  invoke_transfer env args t
  = match find_pymdfu_executable env t with
    | (Raise e, t1) => (Raise e, t1)
    | (Return cmd, t1) =>
        match subprocess_Popen env (t1 ++ [announce cmd])
                (command_of cmd args) with
        | inl e =>
            (Raise e,
             (t1 ++ [announce cmd]) ++ [EvPopen (command_of cmd args)])
        | inr p =>
            (child_outcome p (command_of cmd args),
             (t1 ++ [announce cmd])
               ++ EvPopen (command_of cmd args) :: relayed p)
        end
    end.
Proof.
  unfold invoke_transfer. unfold bind at 1.
  destruct (find_pymdfu_executable env t) as [[cmd|e] t1]; [|reflexivity].
  change (match cmd with
          | CmdStr path => path :: update_arguments args
          | CmdList argv => argv ++ update_arguments args
          end) with (command_of cmd args).
  unfold bind at 1. unfold log at 1, emit at 1. fold (announce cmd).
  unfold bind at 1. unfold Popen at 1.
  destruct (subprocess_Popen env _ (command_of cmd args)) as [e|process];
    [reflexivity|].
  unfold bind at 1. rewrite for_stdout_run.
  unfold child_outcome, relayed.
  destruct (stdout_fault process) as [e|].
  - now rewrite app_nil_r, <- !app_assoc.
  - unfold bind, wait, exit_outcome, raise, ret.
    destruct (child_status process =? 0); simpl; rewrite <- !app_assoc;
      reflexivity.
Qed.

Lemma invoke_transfer_cases env args t :
  transfer_run args t (invoke_transfer env args t).
Proof.
  rewrite invoke_transfer_unfold.
  destruct (find_pymdfu_executable_emits env t) as [lookups [E F]].
  destruct (find_pymdfu_executable env t) as [[cmd|e] t1];
    simpl in E; subst t1.
  2: now constructor.
  destruct (subprocess_Popen env _ (command_of cmd args)) as [e|process].
  - rewrite <- !app_assoc. now constructor.
  - unfold child_outcome, relayed.
    destruct (stdout_fault process) as [e|] eqn:Hf;
      rewrite <- !app_assoc; simpl; [rewrite app_nil_r|]; now constructor.
Qed.

Lemma run_firmware_update_phases env args :
  run_firmware_update env args =
  if negb (truthy (image args)) then
    raise (ValueError "Missing firmware image file path")
  else prelude env args ;; invoke_transfer env args.
Proof. reflexivity. Qed.

Lemma truthy_nonempty (s : string) : s <> "" -> truthy s = true.
Proof. destruct s; [contradiction | reflexivity]. Qed.

Lemma run_after_prelude env args t :
  image args <> "" ->
  run_firmware_update env args t =
  match prelude env args t with
  | (Return _, t1) => invoke_transfer env args t1
  | (Raise e, t1) => (Raise e, t1)
  end.
Proof.
  intro H. rewrite run_firmware_update_phases, (truthy_nonempty _ H).
  reflexivity.
Qed.

Lemma prelude_fresh env args :
  retry args = false -> prelude env args = unlock_and_release env args.
Proof. unfold prelude. now intros ->. Qed.

Lemma prelude_retry env args t :
  retry args = true ->
  prelude env args t = (Return tt, t ++ [retry_notice; EvSleep (1 # 2)]).
Proof.
  unfold prelude, bind, sleep, emit. intros ->. simpl.
  now rewrite <- app_assoc.
Qed.

(** ** Projections of a trace *)

Lemma filter_none {A} (f : A -> bool) (l : list A) :
  Forall (fun x => f x = false) l -> filter f l = [].
Proof.
  induction 1 as [|x l Hx _ IH]; simpl; [reflexivity|]. now rewrite Hx.
Qed.

Lemma device_events_app (l1 l2 : trace) :
  device_events (l1 ++ l2) = device_events l1 ++ device_events l2.
Proof. apply filter_app. Qed.

Lemma register_ops_device_events (l : trace) :
  register_ops (device_events l) = register_ops l.
Proof.
  unfold register_ops, device_events.
  induction l as [|ev l IH]; simpl; [reflexivity|].
  destruct ev; simpl; now rewrite IH.
Qed.

Lemma closed_is_device_event (l : trace) :
  In EvMasterClose l -> device_events l <> [].
Proof.
  intros Hin E.
  assert (H : In EvMasterClose (device_events l))
    by (apply filter_In; auto).
  rewrite E in H. destruct H.
Qed.

Lemma lookups_device_events (l : trace) :
  Forall (fun ev => is_lookup ev = true) l -> device_events l = [].
Proof.
  intro H. apply filter_none. revert H. apply Forall_impl.
  intros [] E; simpl in E; try discriminate E; reflexivity.
Qed.

Lemma lookups_not_process (l : trace) (ev : event) :
  Forall (fun ev => is_lookup ev = true) l -> In ev l ->
  is_process_event ev = false.
Proof.
  intros H Hin. rewrite Forall_forall in H. specialize (H ev Hin).
  destruct ev; simpl in H; try discriminate H; reflexivity.
Qed.

Lemma output_lines_device_events (lines : list string) :
  device_events (map output_line lines) = [].
Proof. induction lines; simpl; auto. Qed.

Lemma output_lines_not_process (lines : list string) (ev : event) :
  In ev (map output_line lines) -> is_process_event ev = false.
Proof.
  rewrite in_map_iff. intros [line [<- _]]. reflexivity.
Qed.

(** What the hand-over appends, whichever way it ends. *)
Lemma transfer_run_tail args t r t' :
  transfer_run args t (r, t') ->
  exists tail,
    t' = t ++ tail /\
    device_events tail = [] /\
    (forall argv, In (EvPopen argv) tail ->
       exists cmd, argv = command_of cmd args) /\
    (forall rc, In (EvWait rc) tail ->
       exists cmd, In (EvPopen (command_of cmd args)) tail /\
                   r = exit_outcome rc (command_of cmd args)).
Proof.
  intro H.
  inversion H as [lk e F | lk cmd e F | lk cmd p e F Hf | lk cmd p F Hf];
    subst; eexists; (split; [reflexivity|]).
  - split; [now apply lookups_device_events|].
    split; intros x Hin; apply (lookups_not_process _ _ F) in Hin;
      discriminate Hin.
  - split; [rewrite device_events_app, lookups_device_events; auto|].
    split; intros x Hin; apply in_app_or in Hin as [Hin|Hin].
    + apply (lookups_not_process _ _ F) in Hin. discriminate Hin.
    + destruct Hin as [Hin|[Hin|[]]]; [discriminate Hin|].
      injection Hin as <-. now exists cmd.
    + apply (lookups_not_process _ _ F) in Hin. discriminate Hin.
    + destruct Hin as [Hin|[Hin|[]]]; discriminate Hin.
  - split.
    { rewrite device_events_app, lookups_device_events by assumption.
      simpl. apply output_lines_device_events. }
    split; intros x Hin; apply in_app_or in Hin as [Hin|Hin].
    + apply (lookups_not_process _ _ F) in Hin. discriminate Hin.
    + destruct Hin as [Hin|[Hin|Hin]]; [discriminate Hin| |].
      * injection Hin as <-. now exists cmd.
      * apply output_lines_not_process in Hin. discriminate Hin.
    + apply (lookups_not_process _ _ F) in Hin. discriminate Hin.
    + destruct Hin as [Hin|[Hin|Hin]]; [discriminate Hin ..|].
      apply output_lines_not_process in Hin. discriminate Hin.
  - split.
    { rewrite device_events_app, lookups_device_events by assumption.
      simpl. rewrite device_events_app, output_lines_device_events.
      reflexivity. }
    split; intros x Hin; apply in_app_or in Hin as [Hin|Hin].
    + apply (lookups_not_process _ _ F) in Hin. discriminate Hin.
    + destruct Hin as [Hin|[Hin|Hin]]; [discriminate Hin| |].
      * injection Hin as <-. now exists cmd.
      * apply in_app_or in Hin as [Hin|[Hin|[]]]; [|discriminate Hin].
        apply output_lines_not_process in Hin. discriminate Hin.
    + apply (lookups_not_process _ _ F) in Hin. discriminate Hin.
    + destruct Hin as [Hin|[Hin|Hin]]; [discriminate Hin ..|].
      apply in_app_or in Hin as [Hin|[Hin|[]]].
      * apply output_lines_not_process in Hin. discriminate Hin.
      * injection Hin as <-. exists cmd. split; [|reflexivity].
        apply in_or_app. right. right. left. reflexivity.
Qed.

(** ** The fresh branch, by what the device answers *)

Section Unlock.

Variable env : Env.
Variable args : Args.
Variable t : trace.

Lemma unlock_unconnected e :
  serial_connect env t (update_config args) = Some e ->
  exists note,
    unlock_and_release env args t
    = (Raise e, t ++ EvConnect (update_config args) :: note) /\
    Forall (fun ev => is_log ev = true) note.
Proof.
  intro Hc. unfold unlock_and_release. unfold bind at 1.
  rewrite init_run. cbv zeta. fold (update_config args). rewrite Hc.
  destruct (is_ModbusError e); eexists; split; try reflexivity;
    repeat constructor.
Qed.

Lemma unlock_rejected e :
  serial_connect env t (update_config args) = None ->
  transport_execute env (connected args t) (dev_id args) cst.WRITE_MULTIPLE_REGISTERS
    0x0000 0 (OvSeq [0; 0; 0; 0]) = inl e ->
  unlock_and_release env args t
  = (Raise (RuntimeError "Failed to set password or password invalid."),
     connected args t ++ [password_clear (dev_id args); EvLog Info (OfExn e);
                   EvLog Info (TextBool "Password valid: " false)]).
Proof.
  intros Hc Hp. unfold unlock_and_release. unfold bind at 1.
  rewrite init_run. cbv zeta. fold (update_config args). rewrite Hc.
  unfold bind at 1. rewrite set_registers_run. cbv zeta. simpl slave_addr.
  fold (connected args t). rewrite Hp.
  unfold bind, log, emit, raise. simpl. rewrite <- app_assoc. reflexivity.
Qed.

Lemma unlock_accepted r :
  serial_connect env t (update_config args) = None ->
  transport_execute env (connected args t) (dev_id args) cst.WRITE_MULTIPLE_REGISTERS
    0x0000 0 (OvSeq [0; 0; 0; 0]) = inr r ->
  exists head,
    unlock_and_release env args t = (Return tt, t ++ head) /\
    device_events head
    = EvConnect (update_config args) :: unlock_writes (dev_id args)
        ++ [EvMasterClose].
Proof.
  intros Hc Hp. unfold unlock_and_release. unfold bind at 1.
  rewrite init_run. cbv zeta. fold (update_config args). rewrite Hc.
  unfold bind at 1. rewrite set_registers_run. cbv zeta. simpl slave_addr.
  fold (connected args t). rewrite Hp.
  unfold bind at 1. unfold log at 1, emit at 1.
  change (negb true) with false. cbv iota.
  do 3 (unfold bind at 1; rewrite set_register_run; cbv zeta;
        simpl slave_addr;
        destruct (transport_execute env _ (dev_id args)
                    cst.WRITE_SINGLE_REGISTER _ 0 (OvInt 0xAA55))).
  all: unfold bind at 1; unfold sleep at 1, emit at 1;
    unfold bind at 1; rewrite close_run;
    destruct (transport_close env _); unfold sleep, emit, connected;
    rewrite <- !app_assoc; eexists; split; reflexivity.
Qed.

End Unlock.

(** ** From what a call returned to what the world answered *)

Lemma init_returned env args t self t1 :
  NTNModbusMaster_init env (dev_id args) (port args) 115200 t
  = (Return self, t1) ->
  serial_connect env t (update_config args) = None /\
  self = {| slave_addr := dev_id args |} /\
  t1 = t ++ [EvConnect (update_config args);
             EvLog Info (Text "NTN dongle init!")].
Proof.
  rewrite init_run. cbv zeta. fold (update_config args).
  destruct (serial_connect env t (update_config args)); [discriminate|].
  intros [= <- <-]. auto.
Qed.

Lemma set_registers_returned env self reg vs t valid t2 :
  set_registers env self reg (Some vs) t = (valid, t2) ->
  let request :=
    EvExecute (slave_addr self) cst.WRITE_MULTIPLE_REGISTERS reg 0 (OvSeq vs)
  in
  (exists r,
     transport_execute env t (slave_addr self) cst.WRITE_MULTIPLE_REGISTERS
       reg 0 (OvSeq vs) = inr r /\
     valid = Return true /\ t2 = t ++ [request]) \/
  (exists e,
     transport_execute env t (slave_addr self) cst.WRITE_MULTIPLE_REGISTERS
       reg 0 (OvSeq vs) = inl e /\
     valid = Return false /\ t2 = t ++ [request; EvLog Info (OfExn e)]).
Proof.
  rewrite set_registers_run. cbv zeta.
  destruct (transport_execute env t _ _ reg 0 (OvSeq vs)) as [e|r];
    intros [= <- <-]; [right | left]; eauto.
Qed.

(** The hand-over, started after [head], adds no device event to it. *)
Lemma device_events_after_transfer env args t head :
  device_events (since t (snd (invoke_transfer env args (t ++ head))))
  = device_events head.
Proof.
  pose proof (invoke_transfer_cases env args (t ++ head)) as H.
  destruct (invoke_transfer env args (t ++ head)) as [r t'].
  apply transfer_run_tail in H as [tail [-> [Hq _]]]. simpl.
  rewrite <- app_assoc, since_app, device_events_app, Hq.
  apply app_nil_r.
Qed.

(** ** The orchestrator *)

Lemma empty_image_usage env args t :
  image args = "" ->
  run_firmware_update env args t
  = (Raise (ValueError "Missing firmware image file path"), t).
Proof.
  intro H. unfold run_firmware_update. rewrite H. reflexivity.
Qed.

(** C7: with an empty image path [run_firmware_update] raises ValueError at
    once: the trace is unchanged, so no connection is opened and no transport
    operation is issued, with or without the retry flag. *)
Theorem empty_image_is_usage_fault env args t :
  image args = "" ->
  run_firmware_update env args t
  = (Raise (ValueError "Missing firmware image file path"), t).
Proof. apply empty_image_usage. Qed.

Lemma empty_image_is_usage_fault_witness :
  run_firmware_update (sim_env 0)
    {| image := ""; port := "/dev/ttyUSB0"; dev_id := 1; retry := false |} []
  = (Raise (ValueError "Missing firmware image file path"), []) /\
  run_firmware_update (sim_env 0)
    {| image := ""; port := "/dev/ttyUSB0"; dev_id := 1; retry := true |} []
  = (Raise (ValueError "Missing firmware image file path"), []).
Proof.
  split; apply empty_image_is_usage_fault; reflexivity.
Defined.

(** A fresh attempt on a device that rejects the password-clear write. *)
Lemma run_when_rejected env args t ntn_dongle t1 valid t2 :
  image args <> "" ->
  retry args = false ->
  NTNModbusMaster_init env (dev_id args) (port args) 115200 t
  = (Return ntn_dongle, t1) ->
  set_registers env ntn_dongle 0x0000 (Some [0; 0; 0; 0]) t1 = (valid, t2) ->
  valid <> Return true ->
  exists e,
    t2 = t ++ [EvConnect (update_config args);
               EvLog Info (Text "NTN dongle init!");
               password_clear (dev_id args); EvLog Info (OfExn e)] /\
    run_firmware_update env args t
    = (Raise (RuntimeError "Failed to set password or password invalid."),
       t ++ [EvConnect (update_config args);
             EvLog Info (Text "NTN dongle init!");
             password_clear (dev_id args); EvLog Info (OfExn e);
             EvLog Info (TextBool "Password valid: " false)]).
Proof.
  intros Himg Hretry Hinit Hset Hvalid.
  apply init_returned in Hinit as [Hc [-> ->]].
  apply set_registers_returned in Hset as [[r [_ [-> _]]]|[e [Hp [_ ->]]]];
    [contradiction|].
  exists e. split; [now rewrite <- app_assoc|].
  rewrite run_after_prelude by assumption.
  rewrite (prelude_fresh env args Hretry).
  rewrite (unlock_rejected env args t e Hc Hp). unfold connected.
  now rewrite <- app_assoc.
Qed.

(** C1: in a fresh attempt whose password-clear write does not return True,
    [run_firmware_update] raises the RuntimeError of the failed password
    right after logging the result; the password-clear write is the only
    register operation of the attempt, so none of the engineering-mode,
    bootloader-mode and reset writes is issued, and no child process is
    spawned or waited for. *)
Theorem rejected_password_aborts env args t ntn_dongle t1 valid t2 :
  image args <> "" ->
  retry args = false ->
  NTNModbusMaster_init env (dev_id args) (port args) 115200 t
  = (Return ntn_dongle, t1) ->
  set_registers env ntn_dongle 0x0000 (Some [0; 0; 0; 0]) t1 = (valid, t2) ->
  valid <> Return true ->
  let run := run_firmware_update env args t in
  run = (Raise (RuntimeError "Failed to set password or password invalid."),
         t2 ++ [EvLog Info (TextBool "Password valid: " false)]) /\
  register_ops (since t (snd run)) = [password_clear (dev_id args)] /\
  filter is_process_event (since t (snd run)) = [].
Proof.
  intros Himg Hretry Hinit Hset Hvalid run.
  destruct (run_when_rejected env args t _ _ _ _ Himg Hretry Hinit Hset
              Hvalid) as [e [-> E]].
  subst run. rewrite E. simpl snd. rewrite since_app.
  split; [|split; reflexivity].
  rewrite <- !app_assoc. reflexivity.
Qed.

Lemma rejected_password_aborts_witness :
  run_firmware_update locked_env fresh_args []
  = (Raise (RuntimeError "Failed to set password or password invalid."),
     [EvConnect (update_config fresh_args);
      EvLog Info (Text "NTN dongle init!");
      password_clear 1; EvLog Info (OfExn (ModbusError 4));
      EvLog Info (TextBool "Password valid: " false)]).
Proof.
  apply (rejected_password_aborts locked_env fresh_args [] dongle
           [EvConnect (update_config fresh_args);
            EvLog Info (Text "NTN dongle init!")]
           (Return false)
           [EvConnect (update_config fresh_args);
            EvLog Info (Text "NTN dongle init!");
            password_clear 1; EvLog Info (OfExn (ModbusError 4))]).
  - discriminate.
  - reflexivity.
  - reflexivity.
  - reflexivity.
  - discriminate.
Defined.

(** C2: in a fresh attempt whose password-clear write returns True, the
    register operations of the attempt are exactly password-clear,
    engineering-mode, bootloader-mode and reset, in this order, whatever the
    transport answers to the last three; on the device side they lie between
    the connection and its close. *)
Theorem accepted_password_runs_unlock env args t ntn_dongle t1 t2 :
  image args <> "" ->
  retry args = false ->
  NTNModbusMaster_init env (dev_id args) (port args) 115200 t
  = (Return ntn_dongle, t1) ->
  set_registers env ntn_dongle 0x0000 (Some [0; 0; 0; 0]) t1
  = (Return true, t2) ->
  let new := since t (snd (run_firmware_update env args t)) in
  register_ops new
  = [password_clear (dev_id args); engineering_mode (dev_id args);
     bootloader_mode (dev_id args); reset_mcu (dev_id args)] /\
  device_events new
  = EvConnect (update_config args) :: unlock_writes (dev_id args)
      ++ [EvMasterClose].
Proof.
  intros Himg Hretry Hinit Hset new.
  apply init_returned in Hinit as [Hc [-> ->]].
  apply set_registers_returned in Hset as [[r [Hp _]]|[e [_ [[=] _]]]].
  destruct (unlock_accepted env args t r Hc Hp) as [head [Hrun Hdev]].
  assert (E : device_events new
    = EvConnect (update_config args) :: unlock_writes (dev_id args)
        ++ [EvMasterClose]).
  { subst new. rewrite run_after_prelude by assumption.
    rewrite (prelude_fresh env args Hretry), Hrun.
    now rewrite device_events_after_transfer. }
  split; [|exact E].
  rewrite <- register_ops_device_events, E. reflexivity.
Qed.

Lemma accepted_password_runs_unlock_witness :
  register_ops (snd (run_firmware_update (sim_env 0) fresh_args []))
  = [password_clear 1; engineering_mode 1; bootloader_mode 1; reset_mcu 1].
Proof.
  apply (accepted_password_runs_unlock (sim_env 0) fresh_args [] dongle
           [EvConnect (update_config fresh_args);
            EvLog Info (Text "NTN dongle init!")]
           [EvConnect (update_config fresh_args);
            EvLog Info (Text "NTN dongle init!"); password_clear 1]).
  - discriminate.
  - reflexivity.
  - reflexivity.
  - reflexivity.
Defined.

(** C3: with the retry flag set and an image path given,
    [run_firmware_update] logs the retry notice, sleeps for half a second
    and goes straight into the hand-over to pymdfu; the events of the attempt
    contain no connection, no register read or write and no close. *)
Theorem retry_skips_the_device env args t :
  retry args = true ->
  image args <> "" ->
  let settled := t ++ [retry_notice; EvSleep (1 # 2)] in
  let run := run_firmware_update env args t in
  run = invoke_transfer env args settled /\
  transfer_run args settled run /\
  device_events (since t (snd run)) = [].
Proof.
  intros Hretry Himg settled run.
  assert (E : run = invoke_transfer env args settled).
  { subst run. rewrite run_after_prelude by assumption.
    now rewrite prelude_retry. }
  split; [exact E|]. rewrite E. split.
  - apply invoke_transfer_cases.
  - subst settled. now rewrite device_events_after_transfer.
Qed.

Lemma retry_skips_the_device_witness :
  run_firmware_update (sim_env 0)
    {| image := "fw.bin"; port := "/dev/ttyUSB0"; dev_id := 1;
       retry := true |} []
  = invoke_transfer (sim_env 0)
      {| image := "fw.bin"; port := "/dev/ttyUSB0"; dev_id := 1;
         retry := true |} [retry_notice; EvSleep (1 # 2)].
Proof.
  apply (retry_skips_the_device (sim_env 0)
           {| image := "fw.bin"; port := "/dev/ttyUSB0"; dev_id := 1;
              retry := true |} []).
  - reflexivity.
  - discriminate.
Defined.

(** ** The command line handed to pymdfu *)




(** Every attempt is what the prelude appended, without a process event,
    followed, when the prelude returned, by a hand-over. *)
Lemma run_firmware_update_split env args t :
  exists head tail,
    snd (run_firmware_update env args t) = t ++ head ++ tail /\
    Forall (fun ev => is_process_event ev = false) head /\
    (forall argv, In (EvPopen argv) tail ->
       exists cmd, argv = command_of cmd args) /\
    (forall rc, In (EvWait rc) tail ->
       exists cmd, In (EvPopen (command_of cmd args)) tail /\
                   fst (run_firmware_update env args t)
                   = exit_outcome rc (command_of cmd args)).
Proof.
  destruct (string_dec (image args) "") as [Himg|Himg].
  - exists [], []. rewrite empty_image_usage by assumption. simpl.
    rewrite app_nil_r. repeat split; auto; intros ? [].
  - rewrite run_after_prelude by assumption.
    destruct (prelude_emits env args t) as [head [E F]].
    destruct (prelude env args t) as [[[]|e] t1]; simpl in E; subst t1.
    + pose proof (invoke_transfer_cases env args (t ++ head)) as H.
      destruct (invoke_transfer env args (t ++ head)) as [r t'].
      apply transfer_run_tail in H as [tail [-> [_ [Hp Hw]]]].
      exists head, tail. simpl. rewrite <- app_assoc. auto.
    + exists head, []. simpl. rewrite app_nil_r.
      repeat split; auto; intros ? [].
Qed.




(** C10: [close] is reached only at the end of a complete unlock sequence:
    an attempt whose events contain the close of the master has, on the
    device side, exactly connect, the four unlock writes and the close.  In
    a fresh attempt whose password-clear write does not return True the
    master is therefore never closed. *)
Theorem close_only_after_full_unlock env args t :
  let new := since t (snd (run_firmware_update env args t)) in
  (In EvMasterClose new ->
   device_events new
   = EvConnect (update_config args) :: unlock_writes (dev_id args)
       ++ [EvMasterClose]) /\
  (forall ntn_dongle t1 valid t2,
     image args <> "" ->
     retry args = false ->
     NTNModbusMaster_init env (dev_id args) (port args) 115200 t
     = (Return ntn_dongle, t1) ->
     set_registers env ntn_dongle 0x0000 (Some [0; 0; 0; 0]) t1
     = (valid, t2) ->
     valid <> Return true ->
     ~ In EvMasterClose new).
Proof.
  intro new. split.
  - subst new. intro Hin.
    destruct (string_dec (image args) "") as [Himg|Himg].
    { rewrite empty_image_usage, since_refl in Hin by assumption.
      destruct Hin. }
    destruct (retry args) eqn:Hretry.
    { exfalso. rewrite run_after_prelude, prelude_retry in Hin
        by assumption.
      apply (closed_is_device_event _ Hin).
      apply device_events_after_transfer. }
    rewrite run_after_prelude in Hin |- * by assumption.
    rewrite (prelude_fresh env args Hretry) in Hin |- *.
    destruct (serial_connect env t (update_config args)) as [e|] eqn:Hc.
    { exfalso.
      destruct (unlock_unconnected env args t e Hc) as [note [E F]].
      rewrite E in Hin. cbv beta iota in Hin. simpl snd in Hin.
      rewrite since_app in Hin.
      destruct Hin as [Hin|Hin]; [discriminate Hin|].
      rewrite Forall_forall in F. apply F in Hin. discriminate Hin. }
    destruct (transport_execute env
                (t ++ [EvConnect (update_config args);
                       EvLog Info (Text "NTN dongle init!")])
                (dev_id args) cst.WRITE_MULTIPLE_REGISTERS 0x0000 0
                (OvSeq [0; 0; 0; 0])) as [e|r] eqn:Hp.
    { exfalso. rewrite (unlock_rejected env args t e Hc Hp) in Hin.
      cbv beta iota in Hin. simpl snd in Hin. unfold connected in Hin.
      rewrite <- app_assoc, since_app in Hin. simpl in Hin.
      repeat (destruct Hin as [Hin|Hin]; [discriminate Hin|]).
      destruct Hin. }
    destruct (unlock_accepted env args t r Hc Hp) as [head [-> Hdev]].
    now rewrite device_events_after_transfer.
  - intros ntn_dongle t1 valid t2 Himg Hretry Hinit Hset Hvalid Hin.
    destruct (run_when_rejected env args t _ _ _ _ Himg Hretry Hinit Hset
                Hvalid) as [e [_ E]].
    subst new. rewrite E in Hin. simpl snd in Hin.
    rewrite since_app in Hin. simpl in Hin.
    repeat (destruct Hin as [Hin|Hin]; [discriminate Hin|]).
    destruct Hin.
Qed.

Lemma close_only_after_full_unlock_witness :
  ~ In EvMasterClose (snd (run_firmware_update locked_env fresh_args [])) /\
  device_events (snd (run_firmware_update (sim_env 0) fresh_args []))
  = EvConnect (update_config fresh_args) :: unlock_writes 1
      ++ [EvMasterClose].
Proof.
  split.
  - destruct (close_only_after_full_unlock locked_env fresh_args [])
      as [_ H].
    apply (H dongle
             [EvConnect (update_config fresh_args);
              EvLog Info (Text "NTN dongle init!")]
             (Return false)
             [EvConnect (update_config fresh_args);
              EvLog Info (Text "NTN dongle init!");
              password_clear 1; EvLog Info (OfExn (ModbusError 4))]).
    + discriminate.
    + reflexivity.
    + reflexivity.
    + reflexivity.
    + discriminate.
  - destruct (close_only_after_full_unlock (sim_env 0) fresh_args [])
      as [H _].
    apply H. vm_compute. repeat ((left; reflexivity) || right).
Defined.

(** * Further properties of the controller *)

(** X1: a write with a value present never raises and issues exactly one
    transport request; it returns True exactly when the transport did not
    raise, and a fault is logged once, at info level, after the request. *)
Theorem write_reports_transport_outcome env self reg v vs t :
  let single :=
    EvExecute (slave_addr self) cst.WRITE_SINGLE_REGISTER reg 0 (OvInt v) in
  let block :=
    EvExecute (slave_addr self) cst.WRITE_MULTIPLE_REGISTERS reg 0
      (OvSeq vs) in
  let answer1 :=
    transport_execute env t (slave_addr self) cst.WRITE_SINGLE_REGISTER reg 0
      (OvInt v) in
  let answer2 :=
    transport_execute env t (slave_addr self) cst.WRITE_MULTIPLE_REGISTERS
      reg 0 (OvSeq vs) in
  (fst (set_register env self reg (Some v) t) = Return true <->
   exists r, answer1 = inr r) /\
  (fst (set_register env self reg (Some v) t) = Return false <->
   exists e, answer1 = inl e) /\
  (fst (set_registers env self reg (Some vs) t) = Return true <->
   exists r, answer2 = inr r) /\
  (fst (set_registers env self reg (Some vs) t) = Return false <->
   exists e, answer2 = inl e) /\
  register_ops (since t (snd (set_register env self reg (Some v) t)))
  = [single] /\
  register_ops (since t (snd (set_registers env self reg (Some vs) t)))
  = [block] /\
  (forall e, answer1 = inl e ->
     since t (snd (set_register env self reg (Some v) t))
     = [single; EvLog Info (OfExn e)]) /\
  (forall e, answer2 = inl e ->
     since t (snd (set_registers env self reg (Some vs) t))
     = [block; EvLog Info (OfExn e)]).
Proof.
  cbv zeta. rewrite set_register_run, set_registers_run. cbv zeta.
  destruct (transport_execute env t _ _ reg 0 (OvInt v)) as [e1|r1];
    destruct (transport_execute env t _ _ reg 0 (OvSeq vs)) as [e2|r2];
    simpl fst; simpl snd; rewrite !since_app.
  all: repeat match goal with |- _ /\ _ => split | |- _ <-> _ => split end.
  all: try reflexivity; try discriminate.
  all: try solve [intros [? [=]]].
  all: try solve [intro; eexists; reflexivity].
  all: intros ? [= <-]; reflexivity.
Qed.

Lemma write_reports_transport_outcome_witness :
  fst (set_register (sim_env 0) dongle 0xFFD0 (Some 0xAA55) [])
  = Return true /\
  since [] (snd (set_registers locked_env dongle 0x0000 (Some [1; 2]) []))
  = [EvExecute 1 cst.WRITE_MULTIPLE_REGISTERS 0x0000 0 (OvSeq [1; 2]);
     EvLog Info (OfExn (ModbusError 4))].
Proof.
  split.
  - apply (write_reports_transport_outcome (sim_env 0) dongle 0xFFD0 0xAA55
             [] []).
    exists []. reflexivity.
  - apply (write_reports_transport_outcome locked_env dongle 0x0000 0
             [1; 2] []).
    reflexivity.
Defined.

(** X2: [read_register] decides on the first word of the reply alone.  A
    reply that starts with a non-zero word yields that word whatever follows
    it; one that starts with zero yields None even when later words are not
    zero, where [read_registers] returns the whole tuple; an empty reply
    yields None and the IndexError is logged. *)
Theorem read_register_first_word_decides env self reg fc t :
  (forall v rest,
     transport_execute env t (slave_addr self) fc reg 1 (OvInt 0)
     = inr (v :: rest) ->
     v <> 0 ->
     read_register env self reg fc t
     = (Return (Some v), t ++ [EvExecute (slave_addr self) fc reg 1 (OvInt 0)]))
  /\
  (forall rest,
     transport_execute env t (slave_addr self) fc reg 1 (OvInt 0)
     = inr (0 :: rest) ->
     fst (read_register env self reg fc t) = Return None /\
     (~ Forall (fun x => x = 0) rest ->
      fst (read_registers env self reg 1 fc t) = Return (Some (0 :: rest))))
  /\
  (transport_execute env t (slave_addr self) fc reg 1 (OvInt 0) = inr [] ->
   read_register env self reg fc t
   = (Return None,
      t ++ [EvExecute (slave_addr self) fc reg 1 (OvInt 0);
            EvLog Info (OfExn IndexError)])).
Proof.
  rewrite read_register_run, read_registers_run. cbv zeta.
  repeat match goal with |- _ /\ _ => split end.
  - intros v rest -> Hv. destruct (Z.eqb_spec v 0); [contradiction|].
    reflexivity.
  - intros rest ->. split; [reflexivity|]. intro Hrest. simpl.
    destruct (forallb (fun x => x =? 0) rest) eqn:F; [|reflexivity].
    exfalso. apply Hrest, all_zero_spec, F.
  - intros ->. reflexivity.
Qed.

Lemma read_register_first_word_decides_witness :
  read_register (reading_env [7; 0]) dongle 0x0100 cst.READ_INPUT_REGISTERS []
  = (Return (Some 7),
     [EvExecute 1 cst.READ_INPUT_REGISTERS 0x0100 1 (OvInt 0)]) /\
  fst (read_register (reading_env [0; 5]) dongle 0x0100
         cst.READ_INPUT_REGISTERS []) = Return None /\
  fst (read_registers (reading_env [0; 5]) dongle 0x0100 1
         cst.READ_INPUT_REGISTERS []) = Return (Some [0; 5]) /\
  read_register (reading_env []) dongle 0x0100 cst.READ_INPUT_REGISTERS []
  = (Return None,
     [EvExecute 1 cst.READ_INPUT_REGISTERS 0x0100 1 (OvInt 0);
      EvLog Info (OfExn IndexError)]).
Proof.
  split; [|split; [|split]].
  - apply (read_register_first_word_decides (reading_env [7; 0]) dongle
             0x0100 cst.READ_INPUT_REGISTERS []) with (rest := [0]);
      [reflexivity | discriminate].
  - apply (read_register_first_word_decides (reading_env [0; 5]) dongle
             0x0100 cst.READ_INPUT_REGISTERS []) with (rest := [5]).
    reflexivity.
  - apply (read_register_first_word_decides (reading_env [0; 5]) dongle
             0x0100 cst.READ_INPUT_REGISTERS []) with (rest := [5]);
      [reflexivity|].
    intro H. inversion H as [|? ? H5 _]. discriminate H5.
  - apply (read_register_first_word_decides (reading_env []) dongle
             0x0100 cst.READ_INPUT_REGISTERS []).
    reflexivity.
Defined.

(** X3: a read issues exactly one transport request, whatever the reply: it
    carries the slave address of the controller, the function code and the
    register given, and the count (1 for [read_register]); nothing is
    retried after a fault, which is logged once at info level. *)
Theorem read_issues_single_request env self reg num fc t :
  let single := EvExecute (slave_addr self) fc reg 1 (OvInt 0) in
  let multiple := EvExecute (slave_addr self) fc reg num (OvInt 0) in
  register_ops (since t (snd (read_register env self reg fc t))) = [single]
  /\
  register_ops (since t (snd (read_registers env self reg num fc t)))
  = [multiple] /\
  (forall e,
     transport_execute env t (slave_addr self) fc reg 1 (OvInt 0) = inl e ->
     since t (snd (read_register env self reg fc t))
     = [single; EvLog Info (OfExn e)]) /\
  (forall e,
     transport_execute env t (slave_addr self) fc reg num (OvInt 0) = inl e ->
     since t (snd (read_registers env self reg num fc t))
     = [multiple; EvLog Info (OfExn e)]).
Proof.
  cbv zeta. rewrite read_register_run, read_registers_run. cbv zeta.
  repeat match goal with |- _ /\ _ => split end.
  - destruct (transport_execute env t _ fc reg 1 _) as [e|[|v rest]];
      simpl snd; rewrite since_app; reflexivity.
  - destruct (transport_execute env t _ fc reg num _) as [e|values];
      simpl snd; rewrite since_app; reflexivity.
  - intros e ->. simpl snd. now rewrite since_app.
  - intros e ->. simpl snd. now rewrite since_app.
Qed.

Lemma read_issues_single_request_witness :
  since [] (snd (read_register silent_env dongle 0x0100
                   cst.READ_INPUT_REGISTERS []))
  = [EvExecute 1 cst.READ_INPUT_REGISTERS 0x0100 1 (OvInt 0);
     EvLog Info (OfExn (OtherException "ModbusInvalidResponseError"))] /\
  since [] (snd (read_registers silent_env dongle 0x0100 3
                   cst.READ_INPUT_REGISTERS []))
  = [EvExecute 1 cst.READ_INPUT_REGISTERS 0x0100 3 (OvInt 0);
     EvLog Info (OfExn (OtherException "ModbusInvalidResponseError"))].
Proof.
  split.
  - apply (read_issues_single_request silent_env dongle 0x0100 3
             cst.READ_INPUT_REGISTERS []).
    reflexivity.
  - apply (read_issues_single_request silent_env dongle 0x0100 3
             cst.READ_INPUT_REGISTERS []).
    reflexivity.
Defined.

(** X4: [close] never raises.  It calls the master's close exactly once and
    logs the result: at info level when the port was released, at error
    level, with the exception, when closing failed. *)
Theorem close_never_raises env self t :
  fst (close env self t) = Return tt /\
  (transport_close env t = None ->
   since t (snd (close env self t))
   = [EvMasterClose; EvLog Info (Text "NTN dongle connection closed!")]) /\
  (forall e, transport_close env t = Some e ->
     since t (snd (close env self t))
     = [EvMasterClose;
        EvLog Error (TextExn "Error closing connection: " e)]).
Proof.
  rewrite close_run.
  destruct (transport_close env t) as [e|]; simpl; rewrite since_app;
    repeat split; try discriminate; try reflexivity.
  now intros ? [= <-].
Qed.

Lemma close_never_raises_witness :
  since [] (snd (close (sim_env 0) dongle []))
  = [EvMasterClose; EvLog Info (Text "NTN dongle connection closed!")].
Proof.
  apply (close_never_raises (sim_env 0) dongle []). reflexivity.
Defined.

(** * Locating pymdfu *)

Lemma truthy_opt_some (p : string) : p <> "" -> truthy_opt (Some p) = true.
Proof. apply truthy_nonempty. Qed.

(** X5: when PATH holds pymdfu, [find_pymdfu_executable] returns that path
    after this one lookup, on every platform: no further lookup, no file
    check and no probe of the module is made. *)
Theorem path_hit_short_circuits env t p :
  shutil_which env t "pymdfu" = Some p ->
  p <> "" ->
  find_pymdfu_executable env t = (Return (CmdStr p), t ++ [EvWhich "pymdfu"]).
Proof.
  intros Hw Hp.
  unfold find_pymdfu_executable, or_else, return_if_found. unfold bind at 1.
  unfold bind at 1. unfold which at 1. rewrite Hw, (truthy_opt_some p Hp).
  reflexivity.
Qed.

Lemma path_hit_short_circuits_witness :
  find_pymdfu_executable (sim_env 0) []
  = (Return (CmdStr "/usr/bin/pymdfu"), [EvWhich "pymdfu"]).
Proof.
  apply (path_hit_short_circuits (sim_env 0) [] "/usr/bin/pymdfu").
  - reflexivity.
  - discriminate.
Defined.

(** X6: off Windows, when PATH does not hold pymdfu, the search goes straight
    to the probe [python -m pymdfu --help]: pymdfu.exe is never looked up and
    no file is checked.  Exit status 0 selects the module invocation; any
    other status, a timeout, a CalledProcessError or a missing interpreter
    select the bare name pymdfu; any other exception of the probe is
    raised. *)
Theorem off_windows_search env t :
  sys_platform env <> "win32" ->
  truthy_opt (shutil_which env t "pymdfu") = false ->
  let looked := t ++ [EvWhich "pymdfu"] in
  find_pymdfu_executable env t
  = (match subprocess_run env looked (probe_argv env) with
     | inr returncode =>
         Return (if returncode =? 0 then CmdList (module_argv env)
                 else CmdStr "pymdfu")
     | inl e => if is_probe_error e then Return (CmdStr "pymdfu") else Raise e
     end,
     looked ++ [EvRun (probe_argv env)]).
Proof.
  intros Hplat Hw looked. subst looked.
  apply String.eqb_neq in Hplat.
  unfold find_pymdfu_executable, or_else, return_if_found.
  unfold bind at 1. unfold bind at 1. unfold which at 1. rewrite Hw, Hplat.
  unfold bind, try_except, run_probe, ret.
  fold (probe_argv env). fold (module_argv env).
  destruct (subprocess_run env _ (probe_argv env)) as [e|rc].
  - now destruct (is_probe_error e).
  - now destruct (rc =? 0).
Qed.

Lemma off_windows_search_witness :
  find_pymdfu_executable
    (bare_env "linux" (inl TimeoutExpired) (inl FileNotFoundError)) []
  = (Return (CmdStr "pymdfu"),
     [EvWhich "pymdfu"; EvRun ["python"; "-m"; "pymdfu"; "--help"]]) /\
  find_pymdfu_executable
    (bare_env "linux" (inr 0) (inl FileNotFoundError)) []
  = (Return (CmdList ["python"; "-m"; "pymdfu"]),
     [EvWhich "pymdfu"; EvRun ["python"; "-m"; "pymdfu"; "--help"]]).
Proof.
  split.
  - apply (off_windows_search
             (bare_env "linux" (inl TimeoutExpired) (inl FileNotFoundError))
             []);
      [discriminate | reflexivity].
  - apply (off_windows_search
             (bare_env "linux" (inr 0) (inl FileNotFoundError)) []);
      [discriminate | reflexivity].
Defined.

(** X7: on Windows, when PATH does not hold pymdfu, the candidates are tried
    in the order pymdfu.exe on PATH, pymdfu.exe in the Scripts directory of
    the interpreter, pymdfu in that directory; the first one found is
    returned and nothing after it is tried. *)
Theorem windows_search_order env t :
  sys_platform env = "win32" ->
  truthy_opt (shutil_which env t "pymdfu") = false ->
  let t1 := t ++ [EvWhich "pymdfu"] in
  let t2 := t1 ++ [EvWhich "pymdfu.exe"] in
  let t3 := t2 ++ [EvExists (scripts_exe env)] in
  (forall p, shutil_which env t1 "pymdfu.exe" = Some p -> p <> "" ->
     find_pymdfu_executable env t = (Return (CmdStr p), t2)) /\
  (truthy_opt (shutil_which env t1 "pymdfu.exe") = false ->
   os_path_exists env t2 (scripts_exe env) = true ->
   find_pymdfu_executable env t = (Return (CmdStr (scripts_exe env)), t3)) /\
  (truthy_opt (shutil_which env t1 "pymdfu.exe") = false ->
   os_path_exists env t2 (scripts_exe env) = false ->
   os_path_exists env t3 (scripts_script env) = true ->
   find_pymdfu_executable env t
   = (Return (CmdStr (scripts_script env)),
      t3 ++ [EvExists (scripts_script env)])).
Proof.
  intros Hplat Hw t1 t2 t3. subst t1 t2 t3.
  apply String.eqb_eq in Hplat.
  repeat match goal with |- _ /\ _ => split end.
  - intros p Hexe Hp.
    cbv beta iota delta [find_pymdfu_executable or_else return_if_found
                         bind ret which].
    rewrite Hw, Hplat. cbv beta iota.
    rewrite Hexe, (truthy_opt_some p Hp). reflexivity.
  - intros Hexe Hfile. unfold scripts_exe in *.
    cbv beta iota zeta delta [find_pymdfu_executable or_else return_if_found
                              bind ret which path_exists].
    rewrite Hw, Hplat. cbv beta iota. rewrite Hexe. cbv beta iota.
    rewrite Hfile. reflexivity.
  - intros Hexe Hfile Hscript. unfold scripts_exe, scripts_script in *.
    cbv beta iota zeta delta [find_pymdfu_executable or_else return_if_found
                              bind ret which path_exists].
    rewrite Hw, Hplat. cbv beta iota. rewrite Hexe. cbv beta iota.
    rewrite Hfile. cbv beta iota. rewrite Hscript. reflexivity.
Qed.

Lemma windows_search_order_witness :
  find_pymdfu_executable
    (bare_env "win32" (inl FileNotFoundError) (inl FileNotFoundError)) []
  = (Return (CmdStr "C:/Scripts/pymdfu"),
     [EvWhich "pymdfu"; EvWhich "pymdfu.exe";
      EvExists "C:/Scripts/pymdfu.exe"; EvExists "C:/Scripts/pymdfu"]).
Proof.
  apply (windows_search_order
           (bare_env "win32" (inl FileNotFoundError) (inl FileNotFoundError))
           []); reflexivity.
Defined.

(** Runs [find_pymdfu_executable] down to the answers of the world. *)
Ltac find_cases :=
  cbv beta iota zeta delta [find_pymdfu_executable or_else return_if_found
                            bind ret which path_exists try_except run_probe
                            truthy_opt option_map];
  repeat match goal with
         | |- context [match ?x with _ => _ end] =>
             lazymatch x with
             | context [match _ with _ => _ end] => fail
             | _ => destruct x eqn:?; cbv beta iota
             end
         end.

(** X8: the probe of the module is the only step of the search that can make
    it fail or select the module invocation.  [find_pymdfu_executable]
    raises only an exception that the probe raised and that is none of
    TimeoutExpired, CalledProcessError, FileNotFoundError; it returns an
    argument list only when the probe exited with status 0, and the list is
    then [sys.executable, -m, pymdfu]. *)
Theorem probe_decides_fallback env t :
  (forall e, fst (find_pymdfu_executable env t) = Raise e ->
     is_probe_error e = false /\
     exists before,
       snd (find_pymdfu_executable env t)
       = before ++ [EvRun (probe_argv env)] /\
       subprocess_run env before (probe_argv env) = inl e) /\
  (forall argv, fst (find_pymdfu_executable env t) = Return (CmdList argv) ->
     argv = module_argv env /\
     exists before,
       snd (find_pymdfu_executable env t)
       = before ++ [EvRun (probe_argv env)] /\
       subprocess_run env before (probe_argv env) = inr 0).
Proof.
  unfold probe_argv, module_argv. split.
  - intros e. find_cases; simpl fst; simpl snd; intros [= <-].
    all: split; [assumption|]; eexists; split; [reflexivity | assumption].
  - intros argv. find_cases; simpl fst; simpl snd; intros [= <-].
    all: split; [reflexivity|]; eexists; split; [reflexivity|].
    all: match goal with
         | H : (?rc =? 0) = true |- _ => apply Z.eqb_eq in H; subst rc
         end; assumption.
Qed.

Lemma probe_decides_fallback_witness :
  is_probe_error (OtherException "PermissionError") = false /\
  exists before,
    snd (find_pymdfu_executable
           (bare_env "linux" (inl (OtherException "PermissionError"))
              (inl FileNotFoundError)) [])
    = before ++ [EvRun ["python"; "-m"; "pymdfu"; "--help"]] /\
    subprocess_run
      (bare_env "linux" (inl (OtherException "PermissionError"))
         (inl FileNotFoundError)) before
      ["python"; "-m"; "pymdfu"; "--help"]
    = inl (OtherException "PermissionError").
Proof.
  apply (probe_decides_fallback
           (bare_env "linux" (inl (OtherException "PermissionError"))
              (inl FileNotFoundError)) []).
  reflexivity.
Defined.

(** * The attempt as a whole *)

Lemma process_events_app (l1 l2 : trace) :
  process_events (l1 ++ l2) = process_events l1 ++ process_events l2.
Proof. apply filter_app. Qed.

Lemma handoff_events_app (l1 l2 : trace) :
  handoff_events (l1 ++ l2) = handoff_events l1 ++ handoff_events l2.
Proof. apply filter_app. Qed.

Lemma lookups_quiet (l : trace) :
  Forall (fun ev => is_lookup ev = true) l ->
  process_events l = [] /\ handoff_events l = [].
Proof.
  intro H. split; apply filter_none; revert H; apply Forall_impl;
    intros [] E; simpl in E; try discriminate E; reflexivity.
Qed.

Lemma output_lines_quiet (lines : list string) :
  process_events (map output_line lines) = [].
Proof. induction lines; simpl; auto. Qed.

Lemma process_event_shows (ev : event) (l : trace) :
  In ev l -> is_process_event ev = true -> process_events l <> [].
Proof.
  intros Hin Hp E.
  assert (H : In ev (process_events l)) by (apply filter_In; auto).
  rewrite E in H. destruct H.
Qed.

(** The fresh branch on a device that accepts the password, with the settle
    delays in view. *)
Lemma unlock_accepted_handoff env args t r :
  serial_connect env t (update_config args) = None ->
  transport_execute env (connected args t) (dev_id args)
    cst.WRITE_MULTIPLE_REGISTERS 0x0000 0 (OvSeq [0; 0; 0; 0]) = inr r ->
  exists head,
    unlock_and_release env args t = (Return tt, t ++ head) /\
    handoff_events head
    = EvConnect (update_config args) :: unlock_writes (dev_id args)
        ++ [EvSleep 1; EvMasterClose; EvSleep (1 # 2)].
Proof.
  intros Hc Hp. unfold unlock_and_release. unfold bind at 1.
  rewrite init_run. cbv zeta. fold (update_config args). rewrite Hc.
  unfold bind at 1. rewrite set_registers_run. cbv zeta. simpl slave_addr.
  fold (connected args t). rewrite Hp.
  unfold bind at 1. unfold log at 1, emit at 1.
  change (negb true) with false. cbv iota.
  do 3 (unfold bind at 1; rewrite set_register_run; cbv zeta;
        simpl slave_addr;
        destruct (transport_execute env _ (dev_id args)
                    cst.WRITE_SINGLE_REGISTER _ 0 (OvInt 0xAA55))).
  all: unfold bind at 1; unfold sleep at 1, emit at 1;
    unfold bind at 1; rewrite close_run;
    destruct (transport_close env _); unfold sleep, emit, connected;
    rewrite <- !app_assoc; eexists; split; reflexivity.
Qed.

(** What the prelude appends: never a process event, and, when it returns,
    the hand-off sequence of its branch. *)
Lemma prelude_handoff env args t :
  exists head,
    snd (prelude env args t) = t ++ head /\
    process_events head = [] /\
    (fst (prelude env args t) = Return tt ->
     handoff_events head = handoff_of args).
Proof.
  destruct (prelude_emits env args t) as [head [E F]].
  exists head. split; [exact E|]. split; [now apply filter_none|].
  unfold handoff_of. destruct (retry args) eqn:Hretry.
  - rewrite prelude_retry in E |- * by assumption. simpl in E.
    apply app_inv_head in E. subst head. reflexivity.
  - rewrite (prelude_fresh env args Hretry) in E |- *.
    destruct (serial_connect env t (update_config args)) as [e|] eqn:Hc.
    { destruct (unlock_unconnected env args t e Hc) as [note [-> _]].
      discriminate. }
    destruct (transport_execute env (connected args t) (dev_id args)
                cst.WRITE_MULTIPLE_REGISTERS 0x0000 0 (OvSeq [0; 0; 0; 0]))
      as [e|r] eqn:Hp.
    { rewrite (unlock_rejected env args t e Hc Hp). discriminate. }
    destruct (unlock_accepted_handoff env args t r Hc Hp) as [h [Hrun Hh]].
    rewrite Hrun in E. simpl in E. apply app_inv_head in E. now subst h.
Qed.

Lemma invoke_transfer_spawn env args t :
  (exists e lookups,
     Forall (fun ev => is_lookup ev = true) lookups /\
     invoke_transfer env args t = (Raise e, t ++ lookups)) \/
  (exists lookups cmd,
     Forall (fun ev => is_lookup ev = true) lookups /\
     invoke_transfer env args t
     = match subprocess_Popen env (t ++ lookups ++ [announce cmd])
               (command_of cmd args) with
       | inl e =>
           (Raise e,
            t ++ (lookups ++ [announce cmd])
              ++ [EvPopen (command_of cmd args)])
       | inr p =>
           (child_outcome p (command_of cmd args),
            t ++ (lookups ++ [announce cmd])
              ++ EvPopen (command_of cmd args) :: relayed p)
       end).
Proof.
  rewrite invoke_transfer_unfold.
  destruct (find_pymdfu_executable_emits env t) as [lookups [E F]].
  destruct (find_pymdfu_executable env t) as [[cmd|e] t1];
    simpl in E; subst t1.
  - right. exists lookups, cmd. split; [exact F|].
    rewrite <- (app_assoc t lookups [announce cmd]).
    destruct (subprocess_Popen env _ (command_of cmd args));
      now rewrite <- !app_assoc.
  - left. now exists e, lookups.
Qed.

(** Every attempt either stops before spawning anything, or reaches exactly
    one [Popen], after a prelude that returned. *)
Lemma run_shape env args t :
  (process_events (since t (snd (run_firmware_update env args t))) = [] /\
   exists e, fst (run_firmware_update env args t) = Raise e) \/
  (exists pre cmd,
     process_events pre = [] /\
     handoff_events pre = handoff_of args /\
     run_firmware_update env args t
     = match subprocess_Popen env (t ++ pre) (command_of cmd args) with
       | inl e => (Raise e, t ++ pre ++ [EvPopen (command_of cmd args)])
       | inr p =>
           (child_outcome p (command_of cmd args),
            t ++ pre ++ EvPopen (command_of cmd args) :: relayed p)
       end).
Proof.
  destruct (string_dec (image args) "") as [Himg|Himg].
  { left. rewrite empty_image_usage by assumption. simpl.
    rewrite since_refl. eauto. }
  rewrite run_after_prelude by assumption.
  destruct (prelude_handoff env args t) as [head [E [Hq Hh]]].
  destruct (prelude env args t) as [[[]|e] t1]; simpl in E, Hh; subst t1.
  2: { left. simpl. rewrite since_app. eauto. }
  specialize (Hh eq_refl).
  destruct (invoke_transfer_spawn env args (t ++ head))
    as [[e [lookups [F ->]]]|[lookups [cmd [F ->]]]];
    destruct (lookups_quiet lookups F) as [Fp Fh].
  - left. simpl. rewrite <- app_assoc, since_app, process_events_app, Hq, Fp.
    eauto.
  - right. exists (head ++ lookups ++ [announce cmd]), cmd.
    split; [|split].
    + rewrite !process_events_app, Hq, Fp. reflexivity.
    + rewrite !handoff_events_app, Hh, Fh. simpl. apply app_nil_r.
    + rewrite <- (app_assoc t head (lookups ++ [announce cmd])).
      destruct (subprocess_Popen env _ (command_of cmd args));
        now rewrite <- !app_assoc.
Qed.

Lemma relayed_process_events (p : child) :
  process_events (relayed p)
  = match stdout_fault p with
    | Some _ => []
    | None => [EvWait (child_status p)]
    end.
Proof.
  unfold relayed. rewrite process_events_app, output_lines_quiet.
  now destruct (stdout_fault p).
Qed.

Lemma no_popen_before (pre : trace) :
  process_events pre = [] -> forall argv, ~ In (EvPopen argv) pre.
Proof.
  intros H argv Hin. now apply (process_event_shows _ _ Hin).
Qed.

Lemma no_popen_in_relayed (p : child) :
  forall argv, ~ In (EvPopen argv) (relayed p).
Proof.
  intros argv Hin. unfold relayed in Hin.
  apply in_app_or in Hin as [Hin|Hin].
  - apply output_lines_not_process in Hin. discriminate Hin.
  - destruct (stdout_fault p); [destruct Hin|].
    destruct Hin as [Hin|[]]. discriminate Hin.
Qed.

(** A trace with a single [Popen] splits around it in one way only. *)
Lemma split_at_popen (pre0 post0 pre post : trace) c argv :
  (forall a, ~ In (EvPopen a) pre0) ->
  (forall a, ~ In (EvPopen a) post0) ->
  pre ++ EvPopen argv :: post = pre0 ++ EvPopen c :: post0 ->
  pre = pre0 /\ argv = c /\ post = post0.
Proof.
  revert pre. induction pre0 as [|x pre0 IH]; intros [|y pre] Hpre Hpost E;
    simpl in E.
  - injection E as E1 E2. subst. auto.
  - injection E as E1 E2. subst. exfalso. apply (Hpost argv).
    apply in_or_app. right. now left.
  - injection E as E1 _. subst. exfalso. apply (Hpre argv). now left.
  - injection E as E1 E2. subst y.
    destruct (IH pre) as [-> [-> ->]]; auto.
    intros a Hin. apply (Hpre a). now right.
Qed.

(** The events of an attempt that reached [Popen], split at the spawn. *)
Lemma run_split_at_spawn env args t pre argv post :
  since t (snd (run_firmware_update env args t)) = pre ++ EvPopen argv :: post
  ->
  process_events pre = [] /\
  handoff_events pre = handoff_of args /\
  (exists cmd, argv = command_of cmd args) /\
  run_firmware_update env args t
  = match subprocess_Popen env (t ++ pre) argv with
    | inl e => (Raise e, t ++ pre ++ [EvPopen argv])
    | inr p => (child_outcome p argv, t ++ pre ++ EvPopen argv :: relayed p)
    end.
Proof.
  intro E.
  destruct (run_shape env args t) as [[Hq _]|[pre0 [cmd [Hq [Hh Hrun]]]]].
  { exfalso. rewrite E in Hq.
    apply (process_event_shows (EvPopen argv)) in Hq; auto.
    apply in_or_app. right. now left. }
  assert (S : pre = pre0 /\ argv = command_of cmd args).
  { rewrite Hrun in E.
    destruct (subprocess_Popen env (t ++ pre0) (command_of cmd args));
      simpl snd in E; rewrite since_app in E; symmetry in E;
      apply split_at_popen in E as [-> [-> _]];
      auto using no_popen_before, no_popen_in_relayed. }
  destruct S as [-> ->]. eauto.
Qed.

(** X9: when the serial port cannot be opened in a fresh attempt, the
    exception of the connection is raised as it is.  The attempt consists of
    the connection attempt, followed by an error log only for a ModbusError:
    no register is written and nothing is closed, looked up or spawned. *)
Theorem connection_fault_aborts env args t e :
  image args <> "" ->
  retry args = false ->
  serial_connect env t (update_config args) = Some e ->
  run_firmware_update env args t
  = (Raise e,
     t ++ EvConnect (update_config args)
       :: (if is_ModbusError e
           then [EvLog Error (ExnCode e (get_exception_code e))]
           else [])).
Proof.
  intros Himg Hretry Hc.
  rewrite run_after_prelude by assumption.
  rewrite (prelude_fresh env args Hretry).
  unfold unlock_and_release. unfold bind at 1.
  rewrite init_run. cbv zeta. fold (update_config args). rewrite Hc.
  now destruct (is_ModbusError e).
Qed.

Lemma connection_fault_aborts_witness :
  run_firmware_update (unplugged_env (OtherException "SerialException"))
    fresh_args []
  = (Raise (OtherException "SerialException"),
     [EvConnect (update_config fresh_args)]) /\
  run_firmware_update (unplugged_env (ModbusError 2)) fresh_args []
  = (Raise (ModbusError 2),
     [EvConnect (update_config fresh_args);
      EvLog Error (ExnCode (ModbusError 2) 2)]).
Proof.
  split.
  - apply (connection_fault_aborts
             (unplugged_env (OtherException "SerialException")) fresh_args []);
      [discriminate | reflexivity | reflexivity].
  - apply (connection_fault_aborts (unplugged_env (ModbusError 2))
             fresh_args []);
      [discriminate | reflexivity | reflexivity].
Defined.

(** X10: an attempt returns normally exactly when its child was waited for
    and exited with status 0; every other attempt raises. *)
Theorem success_iff_child_exit_zero env args t :
  fst (run_firmware_update env args t) = Return tt <->
  In (EvWait 0) (since t (snd (run_firmware_update env args t))).
Proof.
  destruct (run_shape env args t) as [[Hq [e He]]|[pre [cmd [Hq [_ Hrun]]]]].
  - split.
    + rewrite He. discriminate.
    + intro Hin. exfalso. now apply (process_event_shows _ _ Hin).
  - rewrite Hrun.
    destruct (subprocess_Popen env (t ++ pre) (command_of cmd args))
      as [e|p]; simpl fst; simpl snd; rewrite since_app.
    + split; [discriminate|]. intro Hin. exfalso.
      apply in_app_or in Hin as [Hin|[Hin|[]]]; [|discriminate Hin].
      now apply (process_event_shows _ _ Hin).
    + assert (W : In (EvWait 0) (pre ++ EvPopen (command_of cmd args)
                                   :: relayed p)
                  <-> In (EvWait 0) (process_events (relayed p))).
      { split; intro Hin.
        - apply filter_In. split; [|reflexivity].
          apply in_app_or in Hin as [Hin|[Hin|Hin]]; [| |exact Hin].
          + exfalso. now apply (process_event_shows _ _ Hin).
          + discriminate Hin.
        - apply filter_In in Hin as [Hin _].
          apply in_or_app. right. now right. }
      rewrite W, relayed_process_events. unfold child_outcome, exit_outcome.
      destruct (stdout_fault p) as [e|].
      * split; [discriminate | intros []].
      * destruct (Z.eqb_spec (child_status p) 0) as [->|Hne].
        -- split; [now left | reflexivity].
        -- split; [discriminate|]. intros [[= H0]|[]]. contradiction.
Qed.

Lemma success_iff_child_exit_zero_witness :
  fst (run_firmware_update (sim_env 0) fresh_args []) = Return tt.
Proof.
  apply (success_iff_child_exit_zero (sim_env 0) fresh_args []).
  vm_compute. repeat ((left; reflexivity) || right).
Defined.

(** X11: whatever precedes the spawn of pymdfu in an attempt contains the
    complete sequence of hand-off calls.  In a fresh attempt the device-side
    calls and delays are, in this order: connect, the four unlock writes,
    the one-second wait for the reset, the call of the master's close, the
    half-second wait for the port; in a retry attempt the half-second wait
    alone.  [EvMasterClose] records that close was called, not that it
    succeeded: a failed close is logged by [close] and the attempt goes on,
    so this states the order of the calls and not that the port is free. *)
Theorem spawn_follows_handoff env args t pre argv post :
  since t (snd (run_firmware_update env args t)) = pre ++ EvPopen argv :: post
  ->
  handoff_events pre
  = (if retry args then [EvSleep (1 # 2)]
     else [EvConnect (update_config args); password_clear (dev_id args);
           engineering_mode (dev_id args); bootloader_mode (dev_id args);
           reset_mcu (dev_id args); EvSleep 1; EvMasterClose;
           EvSleep (1 # 2)]).
Proof.
  intro E. apply run_split_at_spawn in E as [_ [Hh _]]. exact Hh.
Qed.

Lemma spawn_follows_handoff_witness :
  handoff_events
    [EvConnect (update_config fresh_args);
     EvLog Info (Text "NTN dongle init!");
     password_clear 1; EvLog Info (TextBool "Password valid: " true);
     engineering_mode 1; bootloader_mode 1; reset_mcu 1; EvSleep 1;
     EvMasterClose; EvLog Info (Text "NTN dongle connection closed!");
     EvSleep (1 # 2); EvWhich "pymdfu";
     EvLog Info (TextCmd "Using pymdfu command: " (CmdStr "/usr/bin/pymdfu"))]
  = [EvConnect (update_config fresh_args); password_clear 1;
     engineering_mode 1; bootloader_mode 1; reset_mcu 1; EvSleep 1;
     EvMasterClose; EvSleep (1 # 2)].
Proof.
  apply (spawn_follows_handoff (sim_env 0) fresh_args [] _
           ["/usr/bin/pymdfu"; "update"; "--tool"; "serial"; "--port";
            "/dev/ttyUSB0"; "--baudrate"; "115200"; "--image"; "fw.bin";
            "-v"; "debug"]
           [EvLog Info (Rstrip "Starting update "); EvLog Info (Rstrip "Done");
            EvWait 0]).
  reflexivity.
Defined.

Lemma find_probes_once env t :
  exists lookups,
    snd (find_pymdfu_executable env t) = t ++ lookups /\
    (List.length (filter is_run lookups) <= 1)%nat.
Proof.
  find_cases; simpl snd; rewrite <- ?app_assoc;
    (eexists; split; [reflexivity | simpl; lia]).
Qed.

Lemma prelude_no_probe env args :
  emits (fun ev => is_run ev = false) (prelude env args).
Proof.
  unfold prelude, unlock_and_release, NTNModbusMaster_init, set_registers,
    set_register, close.
  repeat emits_step.
Qed.

Lemma relayed_no_probe (p : child) : filter is_run (relayed p) = [].
Proof.
  unfold relayed. rewrite filter_app.
  replace (filter is_run (map output_line (stdout_lines p))) with (@nil event)
    by (induction (stdout_lines p); simpl; auto).
  now destruct (stdout_fault p).
Qed.

(** An attempt runs the probe of the module at most once. *)
Lemma run_probes_once env args t :
  (List.length
     (filter is_run (since t (snd (run_firmware_update env args t)))) <= 1)%nat.
Proof.
  destruct (string_dec (image args) "") as [Himg|Himg].
  { rewrite empty_image_usage by assumption. simpl. rewrite since_refl.
    simpl. lia. }
  rewrite run_after_prelude by assumption.
  destruct (prelude_no_probe env args t) as [head [E F]].
  apply filter_none in F.
  destruct (prelude env args t) as [[[]|e] t0]; simpl in E; subst t0.
  2: { simpl. rewrite since_app, F. simpl. lia. }
  rewrite invoke_transfer_unfold.
  destruct (find_probes_once env (t ++ head)) as [lookups [El Hl]].
  destruct (find_pymdfu_executable env (t ++ head)) as [[cmd|e] t1];
    simpl in El; subst t1.
  2: { simpl. rewrite <- app_assoc, since_app, filter_app, F. exact Hl. }
  destruct (subprocess_Popen env _ (command_of cmd args)) as [e|p];
    simpl snd; rewrite <- !app_assoc, since_app, !filter_app, F; simpl;
    rewrite ?relayed_no_probe, ?app_nil_r; exact Hl.
Qed.

(** X12: an attempt never repeats a step that starts a child process.  It
    runs the probe of the module ([subprocess.run], in the search for
    pymdfu) at most once; it calls [Popen] at most once and [wait] at most
    once, and waits only after the [Popen]: its Popen and wait events are
    none, and the attempt raised; a [Popen] alone, and the attempt raised;
    or a [Popen] followed by one [wait], whose status decides the outcome.
    So an attempt starts at most two children, one probe and one
    transfer. *)
Theorem at_most_one_spawn env args t :
  let run := run_firmware_update env args t in
  let spawned := process_events (since t (snd run)) in
  (List.length (filter is_run (since t (snd run))) <= 1)%nat /\
  ((spawned = [] /\ exists e, fst run = Raise e) \/
   (exists argv e, spawned = [EvPopen argv] /\ fst run = Raise e) \/
   (exists argv return_code,
      spawned = [EvPopen argv; EvWait return_code] /\
      fst run = (if return_code =? 0 then Return tt
                 else Raise (CalledProcessError return_code argv)))).
Proof.
  cbv zeta. split; [apply run_probes_once|].
  destruct (run_shape env args t) as [H|[pre [cmd [Hq [_ Hrun]]]]];
    [now left | right].
  rewrite Hrun.
  destruct (subprocess_Popen env (t ++ pre) (command_of cmd args)) as [e|p];
    simpl fst; simpl snd; rewrite since_app, process_events_app, Hq.
  - left. now exists (command_of cmd args), e.
  - simpl. rewrite relayed_process_events. unfold child_outcome.
    destruct (stdout_fault p) as [e|].
    + left. now exists (command_of cmd args), e.
    + right. now exists (command_of cmd args), (child_status p).
Qed.

(** X13: after the spawn, the attempt relays the child's output and nothing
    else: one info record per line the output stream yields, in the order
    the child produced them, each being the line's [rstrip()].  When the
    stream is read to its end the attempt then waits for the child, once.
    When reading the stream raises (output that does not decode), the lines
    read so far have been relayed, the child is not waited for and the
    attempt raises that exception.  When [Popen] itself raises, nothing
    follows and the attempt raises that exception. *)
Theorem child_output_relayed_in_order env args t pre argv post :
  since t (snd (run_firmware_update env args t)) = pre ++ EvPopen argv :: post
  ->
  match subprocess_Popen env (t ++ pre) argv with
  | inl e => post = [] /\ fst (run_firmware_update env args t) = Raise e
  | inr p =>
      let lines :=
        map (fun line => EvLog Info (Rstrip line)) (stdout_lines p) in
      match stdout_fault p with
      | Some e =>
          post = lines /\ fst (run_firmware_update env args t) = Raise e
      | None => post = lines ++ [EvWait (child_status p)]
      end
  end.
Proof.
  intro E. pose proof E as S.
  apply run_split_at_spawn in S as [_ [_ [_ Hrun]]].
  rewrite Hrun in E |- *.
  destruct (subprocess_Popen env (t ++ pre) argv) as [e|p];
    simpl snd in E; rewrite since_app in E; apply app_inv_head in E.
  - split; [|reflexivity]. now injection E as <-.
  - injection E as <-. unfold relayed, child_outcome. cbv zeta.
    fold output_line.
    destruct (stdout_fault p); [split; [apply app_nil_r | reflexivity]|].
    reflexivity.
Qed.

Lemma child_output_relayed_in_order_witness :
  [EvLog Info (Rstrip "Starting update")]
  = map (fun line => EvLog Info (Rstrip line)) ["Starting update"] /\
  fst (run_firmware_update (garbled_env 0) fresh_args [])
  = Raise (OtherException "UnicodeDecodeError").
Proof.
  apply (child_output_relayed_in_order (garbled_env 0) fresh_args []
           [EvConnect (update_config fresh_args);
            EvLog Info (Text "NTN dongle init!");
            password_clear 1; EvLog Info (TextBool "Password valid: " true);
            engineering_mode 1; bootloader_mode 1; reset_mcu 1; EvSleep 1;
            EvMasterClose; EvLog Info (Text "NTN dongle connection closed!");
            EvSleep (1 # 2); EvWhich "pymdfu";
            EvLog Info
              (TextCmd "Using pymdfu command: " (CmdStr "/usr/bin/pymdfu"))]
           ["/usr/bin/pymdfu"; "update"; "--tool"; "serial"; "--port";
            "/dev/ttyUSB0"; "--baudrate"; "115200"; "--image"; "fw.bin";
            "-v"; "debug"]).
  reflexivity.
Defined.

(** * The entry point *)

Lemma log_args_run args t :
  log_args args t = (Return tt, t ++ argument_lines args).
Proof.
  unfold log_args, bind, log, emit, argument_lines.
  rewrite <- !app_assoc. reflexivity.
Qed.

Lemma main_run env args t :
  main env args t
  = match run_firmware_update env args (t ++ argument_lines args) with
    | (Return u, t') => (Return u, t')
    | (Raise e, t') =>
        (Raise e, t' ++ [EvLog Error (TextExn "Firmware update failed: " e)])
    end.
Proof.
  unfold main. unfold bind at 1. rewrite log_args_run.
  unfold try_except.
  destruct (run_firmware_update env args (t ++ argument_lines args))
    as [[u|e] t']; reflexivity.
Qed.

(** X14: [main] logs the four arguments and runs the update; it returns
    exactly when the update returns and raises the very exception the
    update raised, after logging it once at error level as the last record.
    It adds no device or process event of its own. *)
Theorem main_reports_and_reraises env args t :
  let run := run_firmware_update env args (t ++ argument_lines args) in
  fst (main env args t) = fst run /\
  snd (main env args t)
  = snd run
    ++ match fst run with
       | Raise e => [EvLog Error (TextExn "Firmware update failed: " e)]
       | Return _ => []
       end /\
  device_events (since t (snd (main env args t)))
  = device_events (since (t ++ argument_lines args) (snd run)) /\
  process_events (since t (snd (main env args t)))
  = process_events (since (t ++ argument_lines args) (snd run)).
Proof.
  cbv zeta. rewrite main_run.
  destruct (run_firmware_update_split env args (t ++ argument_lines args))
    as [head [tail [E _]]].
  destruct (run_firmware_update env args (t ++ argument_lines args))
    as [[u|e] t']; simpl in E |- *; subst t'.
  - rewrite app_nil_r. split; [reflexivity|]. split; [reflexivity|].
    rewrite !(since_app (t ++ argument_lines args)).
    rewrite <- app_assoc, since_app.
    now rewrite device_events_app, process_events_app.
  - split; [reflexivity|]. split; [reflexivity|].
    rewrite !(since_app (t ++ argument_lines args)).
    rewrite <- !app_assoc, since_app.
    rewrite !device_events_app, !process_events_app. simpl.
    now rewrite !app_nil_r.
Qed.

(** X15: started without an image path, [main] logs the four arguments and
    the failure and raises ValueError: no connection is opened, no register
    is touched, pymdfu is neither looked up nor spawned. *)
Theorem main_without_image env args t :
  image args = "" ->
  main env args t
  = (Raise (ValueError "Missing firmware image file path"),
     t ++ argument_lines args
       ++ [EvLog Error
             (TextExn "Firmware update failed: "
                (ValueError "Missing firmware image file path"))]).
Proof.
  intro H. rewrite main_run, empty_image_usage by assumption.
  now rewrite <- app_assoc.
Qed.

Lemma main_without_image_witness :
  main (sim_env 0)
    {| image := ""; port := "/dev/ttyUSB0"; dev_id := 1; retry := false |} []
  = (Raise (ValueError "Missing firmware image file path"),
     [EvLog Info (Text "Image Path: ");
      EvLog Info (Text "Port: /dev/ttyUSB0");
      EvLog Info (Text "Device Modbus ID: 1");
      EvLog Info (TextBool "Retry: " false);
      EvLog Error
        (TextExn "Firmware update failed: "
           (ValueError "Missing firmware image file path"))]).
Proof.
  apply (main_without_image (sim_env 0)
           {| image := ""; port := "/dev/ttyUSB0"; dev_id := 1;
              retry := false |} []).
  reflexivity.
Defined.

(** * Two more facts on the phases *)

(** X16: once the connection is open and the device has accepted the
    password-clear write, nothing in the unlock phase can abort the attempt:
    whether the three mode writes and the close of the master succeed or
    raise, the attempt completes the hand-off and goes on with the search
    for pymdfu. *)
Theorem accepted_password_reaches_transfer env args t r :
  image args <> "" ->
  retry args = false ->
  serial_connect env t (update_config args) = None ->
  transport_execute env (connected args t) (dev_id args)
    cst.WRITE_MULTIPLE_REGISTERS 0x0000 0 (OvSeq [0; 0; 0; 0]) = inr r ->
  exists head,
    handoff_events head = handoff_of args /\
    run_firmware_update env args t = invoke_transfer env args (t ++ head).
Proof.
  intros Himg Hretry Hc Hp.
  destruct (unlock_accepted_handoff env args t r Hc Hp) as [head [Hrun Hh]].
  exists head. split.
  - unfold handoff_of. now rewrite Hretry.
  - rewrite run_after_prelude by assumption.
    now rewrite (prelude_fresh env args Hretry), Hrun.
Qed.

Lemma accepted_password_reaches_transfer_witness :
  exists head,
    handoff_events head = handoff_of fresh_args /\
    run_firmware_update (sim_env 0) fresh_args []
    = invoke_transfer (sim_env 0) fresh_args ([] ++ head).
Proof.
  apply (accepted_password_reaches_transfer (sim_env 0) fresh_args [] []).
  - discriminate.
  - reflexivity.
  - reflexivity.
  - reflexivity.
Defined.

(** X17: the search for pymdfu only looks: every event it appends is a PATH
    lookup, a file check or the probe of the module, whatever the platform
    and whatever the answers; it never touches the master and never spawns
    or waits for the transfer. *)
Theorem search_only_looks_up env t :
  let looked := since t (snd (find_pymdfu_executable env t)) in
  Forall (fun ev => is_lookup ev = true) looked /\
  device_events looked = [] /\
  process_events looked = [].
Proof.
  cbv zeta.
  destruct (find_pymdfu_executable_emits env t) as [new [E F]].
  rewrite E, since_app.
  split; [exact F|].
  split; [now apply lookups_device_events | now apply lookups_quiet].
Qed.
